(** * StackedRNNCells: a stack of RNN cells behaving as a single cell

    Shallow embedding of [keras_core/layers/rnn/stacked_rnn_cells.py] and
    the properties of its constructor, [output_size], [get_initial_state],
    [call], [build], [get_config] and [from_config].

    Python values are the first-order values that occur as shapes, states
    and flags (None, booleans, integers, tensors, lists, tuples);
    dictionaries as states or shapes are outside the model.  Exceptions are
    values of [exn]; a computation that may raise returns a [result].  The
    diagnostic [print] calls of the source have no effect on any value and
    are left out. *)

From stdpp Require Import base option list gmap strings sets.
From Stdlib Require Import ZArith.

#[local] Set Warnings "-register-all,-clear-no-such-hyp".

Local Open Scope Z_scope.
Local Open Scope string_scope.
Local Open Scope list_scope.

(** ** Python values *)

Inductive pyval : Type :=
  | VNone
  | VBool (b : bool)
  | VInt (n : Z)
  | VTensor (t : nat)
  | VZeros (shape : pyval) (dtype : string)
  | VList (l : list pyval)
  | VTuple (l : list pyval).

(** [x is None] *)
Definition is_none (v : pyval) : bool :=
  match v with VNone => true | _ => false end.

(** [isinstance(x, int)]; [bool] is a subclass of [int]. *)
Definition is_int (v : pyval) : bool :=
  match v with VInt _ | VBool _ => true | _ => false end.

(** [isinstance(x, (list, tuple))] *)
Definition is_list_or_tuple (v : pyval) : bool :=
  match v with VList _ | VTuple _ => true | _ => false end.

(** The items of a list or a tuple. *)
Definition items (v : pyval) : option (list pyval) :=
  match v with VList l | VTuple l => Some l | _ => None end.

(** ** Exceptions and results *)

Inductive capability : Type := CapCall | CapStateSize.

(** The subscript expression that raised an [IndexError]. *)
Inductive index_site : Type :=
  | CellsLast          (* self.cells[-1] *)
  | StateSizeFirst     (* cell.state_size[0] *)
  | FlattenFirst.      (* nest.flatten(input_shape)[0] *)

Inductive exn : Type :=
  | ValueError (missing : capability) (cell : nat)
  | AttributeError (attr : string)
  | IndexError (site : index_site)
  | TypeError (what : string)
  | KeyError (key : string)
  | Raised (code : nat)    (* an exception raised by a collaborator *)
  | Unmodelled.            (* behaviour that is the tensor backend's *)

Inductive result (A : Type) : Type :=
  | Ok (a : A)
  | Err (e : exn).
Arguments Ok {A} a.
Arguments Err {A} e.

#[global] Instance result_ret : MRet result := fun A a => Ok a.
#[global] Instance result_bind : MBind result := fun A B f r =>
  match r with Ok a => f a | Err e => Err e end.
#[global] Instance result_fmap : FMap result := fun A B f r =>
  match r with Ok a => Ok (f a) | Err e => Err e end.

(** Attribute access [obj.attr]: an absent attribute raises. *)
Definition attr {A} (name : string) (o : option A) : result A :=
  match o with Some a => Ok a | None => Err (AttributeError name) end.

(** Running a fallible function over a list, left to right, stopping at the
    first exception. *)
Fixpoint traverse {A B} (f : A → result B) (l : list A) : result (list B) :=
  match l with
  | [] => Ok []
  | a :: l' => b ← f a; bs ← traverse f l'; Ok (b :: bs)
  end.

(** ** tf.nest *)

(** [nest.is_nested(x)] *)
Definition is_nested (v : pyval) : bool := is_list_or_tuple v.

(** [nest.flatten(x)]: the leaves, left to right; an atom is its own leaf. *)
Fixpoint flatten (v : pyval) : list pyval :=
  match v with
  | VList l | VTuple l => mjoin (flatten <$> l)
  | _ => [v]
  end.

(** ** Cells and layers *)

(** A keyword-argument dictionary. *)
Abbreviation kwargs := (gmap string pyval).

(** A step entry point: [f(inputs, states, ...keyword arguments)] returning
    [(output, new_states)] or raising. *)
Definition step_fn : Type := pyval → list pyval → kwargs → result (pyval * pyval).

(** A cell is any object; the composite looks at these attributes of it.
    An attribute that the object does not have is [None] here. *)
Module Cell.
Record t : Type := mk {
  id : nat;                              (* object identity *)
  is_layer : bool;                       (* isinstance(cell, Layer) *)
  call : option step_fn;                 (* cell.call *)
  dunder_call : option step_fn;          (* cell.__call__; callable(cell) *)
  call_signature_has_training : bool;    (* "training" is a parameter of call *)
  state_size : option pyval;             (* cell.state_size *)
  output_size : option pyval;            (* cell.output_size *)
  get_initial_state : option (pyval → result pyval);
  build : option (pyval → result ());    (* cell.build *)
}.

(** ["call" in dir(cell)] and ["state_size" in dir(cell)] *)
Definition has_call (c : t) : bool := bool_decide (is_Some (call c)).
Definition has_state_size (c : t) : bool := bool_decide (is_Some (state_size c)).

(** [callable(cell)] *)
Definition callable (c : t) : bool := bool_decide (is_Some (dunder_call c)).

(** Modelled from the spec: [Layer._call_has_training_arg] is defined in
    [keras_core/layers/layer.py], which is not part of the sources at
    hand; the spec describes it as "the cell supports a training-mode
    flag in its step signature". *)
Definition _call_has_training_arg (c : t) : bool := call_signature_has_training c.
End Cell.

(** The part of the base class [Layer] that the composite reads and writes. *)
Module Layer.
Record t : Type := mk {
  built : bool;
  compute_dtype : string;
  config : gmap string pyval;            (* what Layer.get_config returns *)
}.

Definition set_built (b : bool) (l : t) : t :=
  mk b (compute_dtype l) (config l).
End Layer.

(** ** The world: built flags of the cell objects and the calls made so far *)

Inductive event : Type :=
  | EvBuild (cell : nat) (input_shape : pyval)
  | EvCall (cell : nat) (inputs : pyval) (states : list pyval) (kw : kwargs).

Record World : Type := mkWorld {
  built_cells : gset nat;     (* the cell objects whose built flag is True *)
  trace : list event;         (* hooks and step operations invoked, oldest first *)
}.

(** A computation that reads and writes the world and may raise; what was
    written before an exception stays written. *)
Definition M (A : Type) : Type := World → World * result A.

#[global] Instance M_ret : MRet M := fun A a w => (w, Ok a).
#[global] Instance M_bind : MBind M := fun A B f m w =>
  match m w with
  | (w', Ok a) => f a w'
  | (w', Err e) => (w', Err e)
  end.

Definition lift {A} (r : result A) : M A := fun w => (w, r).
Definition emit (ev : event) : M () :=
  fun w => (mkWorld (built_cells w) (trace w ++ [ev]), Ok ()).
Definition get_built (c : nat) : M bool :=
  fun w => (w, Ok (bool_decide (c ∈ built_cells w))).
Definition set_built (c : nat) : M () :=
  fun w => (mkWorld ({[c]} ∪ built_cells w) (trace w), Ok ()).

(** ** Python primitives used by the composite *)

(** [getattr(obj, name, None)] *)
Definition getattr_or_none (o : option pyval) : pyval := default VNone o.

(** [x[0]] on a list or a tuple *)
Definition subscript0 (site : index_site) (v : pyval) : result pyval :=
  match items v with
  | Some (x :: _) => Ok x
  | Some [] => Err (IndexError site)
  | None => Err (TypeError "not subscriptable")
  end.

(** [l[-1]] on a Python list *)
Definition subscript_last {A} (site : index_site) (l : list A) : result A :=
  match last l with
  | Some x => Ok x
  | None => Err (IndexError site)
  end.

(** [for d in x]: the items a loop over [x] visits.  None, booleans and
    integers are not iterable; iterating a tensor is an operation of the
    tensor backend. *)
Definition iterate (v : pyval) : result (list pyval) :=
  match v with
  | VList l | VTuple l => Ok l
  | VNone | VBool _ | VInt _ => Err (TypeError "not iterable")
  | VTensor _ | VZeros _ _ => Err Unmodelled
  end.

(** [list(x)] for a nested [x] *)
Definition list_of (v : pyval) : list pyval := default [] (items v).

(** Modelled from the spec: [ops.zeros] belongs to the numeric runtime
    ([keras_core/operations]), which is not part of the sources at hand;
    the spec describes it as "zero-filled tensor allocation of shape (batch,
    dim) in a specified precision".  The allocated tensor is kept symbolic. *)
Definition zeros (shape : pyval) (dtype : string) : pyval := VZeros shape dtype.

(** ** The composite *)

Module StackedRNNCells.

Record t : Type := mk {
  base : Layer.t;            (* the Layer part of the object *)
  cells : list Cell.t;       (* self.cells *)
}.

Section Constructor.

(** [Layer.__init__] applied to the keyword arguments, from
    [keras_core/layers/layer.py]. *)
Variable Layer_init : kwargs → result Layer.t.

(** The loop of [__init__] over the candidate cells. *)
Fixpoint check_cells (cells : list Cell.t) : result () :=
  match cells with
  | [] => Ok ()
  | cell :: rest =>
      if negb (Cell.has_call cell) then
        Err (ValueError CapCall (Cell.id cell))
      else if negb (Cell.has_state_size cell) then
        Err (ValueError CapStateSize (Cell.id cell))
      else check_cells rest
  end.

(** [StackedRNNCells.__init__] on [cells] and the keyword arguments *)
Definition init (cells : list Cell.t) (kw : kwargs) : result t :=
  self ← Layer_init kw;
  _ ← check_cells cells;
  Ok (mk self cells).

End Constructor.

(** [StackedRNNCells.state_size] *)
Definition state_size (self : t) : result pyval :=
  VList <$> traverse (λ c, attr "state_size" (Cell.state_size c)) (cells self).

(** [StackedRNNCells.output_size] *)
Definition output_size (self : t) : result pyval :=
  last_cell ← subscript_last CellsLast (cells self);
  if negb (is_none (getattr_or_none (Cell.output_size last_cell))) then
    attr "output_size" (Cell.output_size last_cell)
  else
    state_size ← attr "state_size" (Cell.state_size last_cell);
    if is_list_or_tuple state_size then subscript0 StateSizeFirst state_size
    else Ok state_size.

(** The loop of [get_initial_state]; [initial_states] is the list built so
    far. *)
Fixpoint get_initial_state_loop (dtype : string) (batch_size : pyval)
    (cells : list Cell.t) (initial_states : list pyval) : result (list pyval) :=
  match cells with
  | [] => Ok initial_states
  | cell :: rest =>
      match Cell.get_initial_state cell with
      | Some get_initial_state_fn =>
          st ← get_initial_state_fn batch_size;
          get_initial_state_loop dtype batch_size rest (initial_states ++ [st])
      | None =>
          cell_state_size ← attr "state_size" (Cell.state_size cell);
          state_size ← (if is_int cell_state_size then Ok [cell_state_size]
                        else iterate cell_state_size);
          get_initial_state_loop dtype batch_size rest
            (initial_states ++
               [VList (map (λ d, zeros (VTuple [batch_size; d]) dtype) state_size)])
      end
  end.

(** [StackedRNNCells.get_initial_state(self, batch_size=None)] *)
Definition get_initial_state (self : t) (batch_size : pyval) : result (list pyval) :=
  get_initial_state_loop (Layer.compute_dtype (base self)) batch_size (cells self) [].

(** The keyword arguments handed to a cell: [kwargs["training"] = training]
    or [kwargs.pop("training", None)]. *)
Definition cell_kwargs (cell : Cell.t) (training : pyval) (kw : kwargs) : kwargs :=
  if Cell.is_layer cell && Cell._call_has_training_arg cell
  then <["training" := training]> kw
  else delete "training" kw.

(** The loop of [call] over [zip(self.cells, states)]. *)
Fixpoint call_loop (training : pyval) (pairs : list (Cell.t * pyval))
    (inputs : pyval) (kw : kwargs) (new_states : list pyval)
    : M (pyval * list pyval) :=
  match pairs with
  | [] => mret (inputs, new_states)
  | (cell, states) :: rest =>
      let states := if is_nested states then list_of states else [states] in
      let kw := cell_kwargs cell training kw in
      cell_call_fn ← lift (if Cell.callable cell
                           then attr "__call__" (Cell.dunder_call cell)
                           else attr "call" (Cell.call cell));
      _ ← emit (EvCall (Cell.id cell) inputs states kw);
      '(inputs, states) ← lift (cell_call_fn inputs states kw);
      call_loop training rest inputs kw (new_states ++ [states])
  end.

(** [StackedRNNCells.call] on [inputs], [states], [training] (False by
    default) and the other keyword arguments *)
Definition call (self : t) (inputs : pyval) (states : list pyval)
    (training : pyval) (kw : kwargs) : M (pyval * list pyval) :=
  call_loop training (zip (cells self) states) inputs kw [].

(** The loop of [build]. *)
Fixpoint build_loop (cells : list Cell.t) (input_shape : pyval) : M () :=
  match cells with
  | [] => mret ()
  | cell :: rest =>
      _ ← (if Cell.is_layer cell then
             built ← get_built (Cell.id cell);
             if negb built then
               build_hook ← lift (attr "build" (Cell.build cell));
               _ ← emit (EvBuild (Cell.id cell) input_shape);
               _ ← lift (build_hook input_shape);
               set_built (Cell.id cell)
             else mret ()
           else mret ());
      output_dim ← lift (
        if negb (is_none (getattr_or_none (Cell.output_size cell))) then
          attr "output_size" (Cell.output_size cell)
        else
          state_size ← attr "state_size" (Cell.state_size cell);
          if is_list_or_tuple state_size then subscript0 StateSizeFirst state_size
          else Ok state_size);
      batch_size ← lift (match flatten input_shape with
                         | b :: _ => Ok b
                         | [] => Err (IndexError FlattenFirst)
                         end);
      build_loop rest (VTuple [batch_size; output_dim])
  end.

(** [StackedRNNCells.build(self, input_shape)] *)
Definition build (self : t) (input_shape : pyval) : M t :=
  _ ← build_loop (cells self) input_shape;
  mret (mk (Layer.set_built true (base self)) (cells self)).

Section Serialization.

Variable Layer_init : kwargs → result Layer.t.

(** [serialization_lib.serialize_keras_object] and
    [serialization_lib.deserialize_keras_object], from
    [keras_core/saving/serialization_lib.py]. *)
Variable serialize_keras_object : Cell.t → result pyval.
Variable deserialize_keras_object : pyval → pyval → result Cell.t.

(** [StackedRNNCells.get_config(self)]; [super().get_config()] is the
    configuration of the Layer part. *)
Definition get_config (self : t) : result (gmap string pyval) :=
  cells ← traverse serialize_keras_object (cells self);
  let config : gmap string pyval := {[ "cells" := VList cells ]} in
  let base_config := Layer.config (base self) in
  Ok (config ∪ base_config).

(** [StackedRNNCells.from_config(cls, config, custom_objects=None)] *)
Definition from_config (config : gmap string pyval) (custom_objects : pyval)
    : result t :=
  cell_configs ← match config !! "cells" with
                 | Some v => Ok v
                 | None => Err (KeyError "cells")
                 end;
  let config := delete "cells" config in
  cell_configs ← iterate cell_configs;
  cells ← traverse (λ cell_config,
                      deserialize_keras_object cell_config custom_objects)
                   cell_configs;
  init Layer_init cells config.

End Serialization.

End StackedRNNCells.

(** * Vocabulary of the properties *)

Import StackedRNNCells.

(** ** The constructor *)

(** A candidate passes the contract check when it has both a [call]
    attribute and a [state_size] attribute. *)
Definition valid (c : Cell.t) : bool := Cell.has_call c && Cell.has_state_size c.

(** The capability whose absence the constructor reports for a candidate. *)
Definition missing_capability (c : Cell.t) : capability :=
  if Cell.has_call c then CapStateSize else CapCall.

(** ** The output size *)

(** The cell declares no output size: the attribute is absent or None. *)
Definition no_output_size (c : Cell.t) : Prop :=
  Cell.output_size c = None ∨ Cell.output_size c = Some VNone.

(** ** Initial states *)

(** The number of state tensors a state size declares, and the number an
    element of the state holds: the length of a list or a tuple, one for
    anything else. *)
Definition arity (v : pyval) : nat :=
  match items v with Some l => length l | None => 1%nat end.

(** What one iteration of the loop of [get_initial_state] appends. *)
Definition cell_initial_state (dtype : string) (batch_size : pyval) (cell : Cell.t)
    : result pyval :=
  match Cell.get_initial_state cell with
  | Some get_initial_state_fn => get_initial_state_fn batch_size
  | None =>
      cell_state_size ← attr "state_size" (Cell.state_size cell);
      state_size ← (if is_int cell_state_size then Ok [cell_state_size]
                    else iterate cell_state_size);
      Ok (VList (map (λ d, zeros (VTuple [batch_size; d]) dtype) state_size))
  end.

(** C5 as stated: the returned list has one element per cell and every
    element holds as many tensors as the state size of its cell declares. *)
Definition initial_state_matches_arity (self : t) (batch_size : pyval) : Prop :=
  ∀ r, get_initial_state self batch_size = Ok r →
    length r = length (cells self)
    ∧ ∀ i c e, cells self !! i = Some c → r !! i = Some e →
        ∃ ss, Cell.state_size c = Some ss ∧ arity e = arity ss.

(** ** Stepping through the cells *)

(** The entry point [call] picks for a cell: [cell.__call__] when the cell
    is callable, [cell.call] otherwise. *)
Definition cell_call_fn (c : Cell.t) : result step_fn :=
  if Cell.callable c then attr "__call__" (Cell.dunder_call c)
  else attr "call" (Cell.call c).

(** The state sequence [call] hands to a cell. *)
Definition state_list (st : pyval) : list pyval :=
  if is_nested st then list_of st else [st].

(** The world after one more invocation has been recorded. *)
Definition record (ev : event) (w : World) : World :=
  mkWorld (built_cells w) (trace w ++ [ev]).

(** The chain of invocations through the cells: [chain x pairs rets evs]
    holds when, starting from input [x], every cell of [pairs] returns, in
    order, the corresponding pair of [rets] on the output of its
    predecessor, [evs] being the invocations made. *)
Inductive chain (training : pyval) (kw : kwargs)
    : pyval → list (Cell.t * pyval) → list (pyval * pyval) → list event → Prop :=
  | chain_nil x : chain training kw x [] [] []
  | chain_cons x c st pairs f r rets evs :
      cell_call_fn c = Ok f →
      f x (state_list st) (cell_kwargs c training kw) = Ok r →
      chain training kw r.1 pairs rets evs →
      chain training kw x ((c, st) :: pairs) (r :: rets)
        (EvCall (Cell.id c) x (state_list st) (cell_kwargs c training kw) :: evs).

(** ** The training flag *)

(** C7 as stated: every invocation carries the training flag exactly when
    the step signature of the invoked cell has a training parameter. *)
Definition forwards_training_by_signature (self : t) (inputs : pyval)
    (states : list pyval) (training : pyval) (kw : kwargs) (w : World) : Prop :=
  ∀ w' r, call self inputs states training kw w = (w', r) →
    ∃ evs, trace w' = trace w ++ evs
      ∧ ∀ i ev, evs !! i = Some ev →
          ∃ c x sl kwi, cells self !! i = Some c
            ∧ ev = EvCall (Cell.id c) x sl kwi
            ∧ kwi !! "training"
              = if Cell.call_signature_has_training c then Some training else None.

(** ** Building *)

(** The output dimension of one cell, by the precedence of [output_size]. *)
Definition cell_output_dim (cell : Cell.t) : result pyval :=
  if negb (is_none (getattr_or_none (Cell.output_size cell))) then
    attr "output_size" (Cell.output_size cell)
  else
    state_size ← attr "state_size" (Cell.state_size cell);
    if is_list_or_tuple state_size then subscript0 StateSizeFirst state_size
    else Ok state_size.

(** [nest.flatten(input_shape)[0]] *)
Definition flatten_first (input_shape : pyval) : result pyval :=
  match flatten input_shape with
  | b :: _ => Ok b
  | [] => Err (IndexError FlattenFirst)
  end.

(** The guarded hook invocation of one iteration of [build]. *)
Definition build_cell (cell : Cell.t) (input_shape : pyval) : M () :=
  if Cell.is_layer cell then
    built ← get_built (Cell.id cell);
    if negb built then
      build_hook ← lift (attr "build" (Cell.build cell));
      _ ← emit (EvBuild (Cell.id cell) input_shape);
      _ ← lift (build_hook input_shape);
      set_built (Cell.id cell)
    else mret ()
  else mret ().

(** The cell is a Layer whose built flag is not set in [built]. *)
Definition needs_build (built : gset nat) (c : Cell.t) : bool :=
  Cell.is_layer c && negb (bool_decide (Cell.id c ∈ built)).

(** The identities of the Layer instances among the cells. *)
Definition layer_ids (cells : list Cell.t) : gset nat :=
  list_to_set (Cell.id <$> filter (λ c, Cell.is_layer c = true) cells).

(** The cells whose build hook the events invoke, oldest first. *)
Definition hook_cells (evs : list event) : list nat :=
  omap (λ ev, match ev with EvBuild c _ => Some c | EvCall _ _ _ _ => None end) evs.

(** Induction on values, through the lists of [VList] and [VTuple]. *)
Section pyval_induction.
Variable P : pyval → Prop.
Hypothesis HNone : P VNone.
Hypothesis HBool : ∀ b, P (VBool b).
Hypothesis HInt : ∀ n, P (VInt n).
Hypothesis HTensor : ∀ t, P (VTensor t).
Hypothesis HZeros : ∀ shape dtype, P shape → P (VZeros shape dtype).
Hypothesis HList : ∀ l, Forall P l → P (VList l).
Hypothesis HTuple : ∀ l, Forall P l → P (VTuple l).

Fixpoint pyval_nested_ind (v : pyval) : P v :=
  let fix all (l : list pyval) : Forall P l :=
    match l with
    | [] => @List.Forall_nil pyval P
    | x :: l' => @List.Forall_cons pyval P x l' (pyval_nested_ind x) (all l')
    end in
  match v with
  | VNone => HNone
  | VBool b => HBool b
  | VInt n => HInt n
  | VTensor t => HTensor t
  | VZeros shape dtype => HZeros shape dtype (pyval_nested_ind shape)
  | VList l => HList l (all l)
  | VTuple l => HTuple l (all l)
  end.
End pyval_induction.

(** The Layer instances have a build hook that returns, and every cell has
    an output dimension. *)
Definition buildable (c : Cell.t) : Prop :=
  (Cell.is_layer c = true →
   ∃ build_hook, Cell.build c = Some build_hook ∧ ∀ shape, build_hook shape = Ok ())
  ∧ ∃ output_dim, cell_output_dim c = Ok output_dim.

(** C8 as stated: after a build that returns, every cell that was not yet
    built and exposes a build hook has had the hook invoked and is marked
    built. *)
Definition builds_every_cell_with_hook (self : t) (input_shape : pyval)
    (w : World) : Prop :=
  ∀ w' self', build self input_shape w = (w', Ok self') →
    ∀ c build_hook, c ∈ cells self → Cell.id c ∉ built_cells w →
      Cell.build c = Some build_hook →
      (∃ shape, EvBuild (Cell.id c) shape ∈ trace w') ∧ Cell.id c ∈ built_cells w'.

(** C4 as stated: over two builds with the same input shape, one after
    the other, no cell has its build hook invoked more than once. *)
Definition hooks_at_most_once (self : t) (input_shape : pyval) (w : World) : Prop :=
  ∀ w1 r1 w2 r2,
    build self input_shape w = (w1, r1) →
    build self input_shape w1 = (w2, r2) →
    ∃ evs, trace w2 = trace w ++ evs ∧ NoDup (hook_cells evs).

(** ** Concrete cells and stacks *)

(** A step operation without a training parameter: Python rejects the call
    when it is handed one. *)
Definition strict_step (tag : Z) : step_fn := λ x s kw,
  if bool_decide (is_Some (kw !! "training")) then Err (TypeError "training")
  else Ok (VTuple [VInt tag; x], VList s).

(** A step operation with a training parameter. *)
Definition training_step (tag : Z) : step_fn := λ x s kw,
  Ok (VTuple [VInt tag; x], VList s).

(** A Layer cell without an initial-state generator of its own. *)
Definition simple_cell (id : nat) (units : Z) (accepts_training : bool) : Cell.t :=
  let step := if accepts_training then training_step units else strict_step units in
  Cell.mk id true (Some step) (Some step) accepts_training
    (Some (VInt units)) None None (Some (λ _, Ok ())).

(** A Layer cell with two state tensors, an output size and a generator. *)
Definition lstm_cell (id : nat) (units : Z) : Cell.t :=
  Cell.mk id true (Some (training_step units)) (Some (training_step units)) true
    (Some (VList [VInt units; VInt units])) (Some (VInt units))
    (Some (λ batch_size,
             Ok (VList [zeros (VTuple [batch_size; VInt units]) "float32";
                        zeros (VTuple [batch_size; VInt units]) "float32"])))
    (Some (λ _, Ok ())).

(** An object that is not a Layer: it has [call] with a training parameter,
    [state_size] and a [build] method. *)
Definition duck_cell (id : nat) : Cell.t :=
  Cell.mk id false (Some (training_step 4)) None true
    (Some (VInt 4)) None None (Some (λ _, Ok ())).

(** A cell that declares two state tensors and whose generator returns a
    single tensor. *)
Definition lone_state_cell (id : nat) : Cell.t :=
  Cell.mk id true (Some (training_step 4)) (Some (training_step 4)) true
    (Some (VTuple [VInt 4; VInt 8])) None
    (Some (λ _, Ok (VTensor 0))) (Some (λ _, Ok ())).

(** A candidate without [state_size]. *)
Definition stateless_cell (id : nat) : Cell.t :=
  Cell.mk id false (Some (training_step 1)) None false None None None None.

Definition Layer_init0 : kwargs → result Layer.t :=
  λ kw, Ok (Layer.mk false "float32" kw).

Definition base0 : Layer.t := Layer.mk false "float32" ∅.

Definition world0 : World := mkWorld ∅ [].

(** A stack of a cell without a training parameter and an LSTM-like cell. *)
Definition stack2 : t := mk base0 [simple_cell 0 4 false; lstm_cell 1 8].

(** A stack of two cells with state sizes 4 and 8 and no generators. *)
Definition stack48 : t := mk base0 [simple_cell 0 4 false; simple_cell 1 8 true].

Definition states2 : list pyval := [VTensor 1; VList [VTensor 2; VTensor 3]].

Definition shape0 : pyval := VTuple [VInt 3; VInt 2].

(** A serialiser that writes the identity of the cell, and its inverse on
    the two cells of [stack2]. *)
Definition serialize0 : Cell.t → result pyval :=
  λ c, Ok (VInt (Z.of_nat (Cell.id c))).

Definition deserialize0 : pyval → pyval → result Cell.t := λ d _,
  match d with
  | VInt 0 => Ok (simple_cell 0 4 false)
  | VInt 1 => Ok (lstm_cell 1 8)
  | _ => Err (Raised 0)
  end.

(** ** Cells that raise or are oddly shaped *)

(** A Layer cell whose step raises. *)
Definition raising_cell (id : nat) (code : nat) : Cell.t :=
  Cell.mk id true (Some (λ _ _ _, Err (Raised code))) (Some (λ _ _ _, Err (Raised code)))
    true (Some (VInt 2)) None None (Some (λ _, Ok ())).

(** A Layer cell whose build hook raises. *)
Definition unbuildable_cell (id : nat) (code : nat) : Cell.t :=
  Cell.mk id true (Some (training_step 2)) (Some (training_step 2)) true
    (Some (VInt 2)) None None (Some (λ _, Err (Raised code))).

Definition stack_raising : t :=
  mk base0 [simple_cell 0 4 false; raising_cell 1 7; lstm_cell 2 8].

Definition stack_partial : t :=
  mk base0 [simple_cell 0 4 false; unbuildable_cell 1 3; lstm_cell 2 8].

(** A serialiser that raises on the cell of identity 1. *)
Definition serialize_partial : Cell.t → result pyval :=
  λ c, if Nat.eqb (Cell.id c) 1 then Err (Raised 9) else serialize0 c.

(** ** Cells rebuilt from a configuration *)

(** Two cell objects with the same attributes; their identities may
    differ, as those of an object and of the new object that is made from
    its configuration do. *)
Definition same_attributes (c c' : Cell.t) : Prop :=
  Cell.is_layer c = Cell.is_layer c'
  ∧ Cell.call c = Cell.call c'
  ∧ Cell.dunder_call c = Cell.dunder_call c'
  ∧ Cell.call_signature_has_training c = Cell.call_signature_has_training c'
  ∧ Cell.state_size c = Cell.state_size c'
  ∧ Cell.output_size c = Cell.output_size c'
  ∧ Cell.get_initial_state c = Cell.get_initial_state c'
  ∧ Cell.build c = Cell.build c'.

(** The inverse of [serialize0] on the cells of [stack2], making new
    objects. *)
Definition deserialize_fresh : pyval → pyval → result Cell.t := λ d _,
  match d with
  | VInt 0 => Ok (simple_cell 100 4 false)
  | VInt 1 => Ok (lstm_cell 101 8)
  | _ => Err (Raised 0)
  end.

(** * Properties *)

(** ** Results *)

Lemma bind_Ok {A B} (f : A → result B) (r : result A) (b : B) :
  r ≫= f = Ok b ↔ ∃ a, r = Ok a ∧ f a = Ok b.
Proof.
  destruct r as [a|e]; simpl; split.
  - intros H. by exists a.
  - by intros (a' & [= <-] & H).
  - done.
  - by intros (a' & ? & _).
Qed.

Lemma traverse_Ok_length {A B} (f : A → result B) l bs :
  traverse f l = Ok bs → length bs = length l.
Proof.
  revert bs. induction l as [|a l IH]; intros bs; simpl.
  - by intros [= <-].
  - intros (b & _ & (bs' & Hbs' & [= <-])%bind_Ok)%bind_Ok.
    simpl. f_equal. by apply IH.
Qed.

Lemma traverse_Ok_lookup {A B} (f : A → result B) l bs i a :
  traverse f l = Ok bs → l !! i = Some a → ∃ b, bs !! i = Some b ∧ f a = Ok b.
Proof.
  revert bs i. induction l as [|a' l IH]; intros bs i; simpl; [done|].
  intros (b & Hb & (bs' & Hbs' & [= <-])%bind_Ok)%bind_Ok.
  destruct i as [|i]; simpl.
  - intros [= ->]. by exists b.
  - by apply IH.
Qed.

(** ** The constructor *)

Lemma check_cells_Ok cells :
  check_cells cells = Ok () ↔ Forall (λ c, valid c = true) cells.
Proof.
  induction cells as [|c cells IH]; simpl.
  - split; [by constructor | done].
  - unfold valid in *. rewrite Forall_cons.
    destruct (Cell.has_call c), (Cell.has_state_size c); simpl;
      rewrite ?IH; (split; [intros Hall | intros [Hc Hall]]); done.
Qed.

Lemma check_cells_Err cells :
  ¬ Forall (λ c, valid c = true) cells →
  ∃ pre c post, cells = pre ++ c :: post
    ∧ Forall (λ c, valid c = true) pre ∧ valid c = false
    ∧ check_cells cells = Err (ValueError (missing_capability c) (Cell.id c)).
Proof.
  induction cells as [|c cells IH]; intros Hnot.
  - destruct Hnot. constructor.
  - destruct (valid c) eqn:Hc.
    + destruct IH as (pre & c' & post & -> & Hpre & Hc' & Hchk).
      { intros Hall. apply Hnot. by constructor. }
      exists (c :: pre), c', post. split_and!; [done|by constructor|done|].
      simpl. unfold valid in Hc. apply andb_true_iff in Hc as [-> ->]. done.
    + exists [], c, cells. split_and!; [done|constructor|done|].
      simpl. unfold valid, missing_capability in *.
      destruct (Cell.has_call c); simpl in *; [by rewrite Hc|done].
Qed.

Lemma init_Ok (Layer_init : kwargs → result Layer.t) cells kw self :
  init Layer_init cells kw = Ok self ↔
  Layer_init kw = Ok (base self)
  ∧ Forall (λ c, valid c = true) cells
  ∧ StackedRNNCells.cells self = cells.
Proof.
  unfold init. rewrite bind_Ok. split.
  - intros (b & Hb & (u & Hchk & [= <-])%bind_Ok). destruct u.
    by apply check_cells_Ok in Hchk.
  - intros (Hb & Hall & Hcells). exists (base self). split; [done|].
    apply check_cells_Ok in Hall. rewrite Hall. simpl.
    destruct self; simpl in *. by subst.
Qed.

(** C3. Constructing a composite returns a composite exactly when the base
    initialisation succeeds and every candidate has both a [call] and a
    [state_size] attribute, and then the composite holds the candidates in
    the given order; when the base initialisation succeeds and some
    candidate lacks one of the two, construction raises the ValueError of
    the first such candidate and of its first missing capability.  The
    constructor is a plain [result]: it runs no build hook and no step
    operation, and an exception leaves no composite. *)
Theorem init_contract (Layer_init : kwargs → result Layer.t) cells kw :
  (∀ self, init Layer_init cells kw = Ok self ↔
      Layer_init kw = Ok (base self)
      ∧ Forall (λ c, valid c = true) cells
      ∧ StackedRNNCells.cells self = cells)
  ∧ (∀ b, Layer_init kw = Ok b →
      ¬ Forall (λ c, valid c = true) cells →
      ∃ pre c post, cells = pre ++ c :: post
        ∧ Forall (λ c, valid c = true) pre ∧ valid c = false
        ∧ init Layer_init cells kw
            = Err (ValueError (missing_capability c) (Cell.id c))).
Proof.
  split.
  - intros self. apply init_Ok.
  - intros b Hb Hnot.
    destruct (check_cells_Err cells Hnot) as (pre & c & post & ? & ? & ? & Hchk).
    exists pre, c, post. split_and!; try done.
    unfold init. rewrite Hb. simpl. by rewrite Hchk.
Qed.

(** ** The output size *)

Lemma subscript_last_snoc {A} site (l : list A) x :
  subscript_last site (l ++ [x]) = Ok x.
Proof. unfold subscript_last. by rewrite last_snoc. Qed.

(** C2. The output size of a composite whose last cell is [c] follows the
    precedence: the output size that [c] declares when it is present and
    not None; otherwise the first element of [c]'s state size when that is
    a list or a tuple; otherwise [c]'s state size itself.  An empty list or
    tuple has no first element, and the subscript raises. *)
Theorem output_size_precedence self pre c :
  cells self = pre ++ [c] →
  (∀ v, Cell.output_size c = Some v → v ≠ VNone → output_size self = Ok v)
  ∧ (∀ x l, no_output_size c →
       Cell.state_size c = Some (VList (x :: l))
       ∨ Cell.state_size c = Some (VTuple (x :: l)) →
       output_size self = Ok x)
  ∧ (∀ s, no_output_size c → Cell.state_size c = Some s →
       is_list_or_tuple s = false → output_size self = Ok s)
  ∧ (no_output_size c →
       Cell.state_size c = Some (VList []) ∨ Cell.state_size c = Some (VTuple []) →
       output_size self = Err (IndexError StateSizeFirst)).
Proof.
  intros Hcells. unfold output_size. rewrite Hcells, subscript_last_snoc. simpl.
  split_and!.
  - intros v -> Hv. simpl. by destruct v.
  - intros x l [-> | ->] [-> | ->]; done.
  - intros s [-> | ->] -> Hs; simpl; by rewrite Hs.
  - intros [-> | ->] [-> | ->]; done.
Qed.

(** C10. Construction from the empty sequence succeeds whenever the base
    initialisation does, and the output size of the resulting composite
    raises the IndexError of [self.cells[-1]]; that IndexError is raised
    exactly by the composites whose cell sequence is empty. *)
Theorem empty_stack_output_size (Layer_init : kwargs → result Layer.t) kw b :
  Layer_init kw = Ok b →
  init Layer_init [] kw = Ok (mk b [])
  ∧ output_size (mk b []) = Err (IndexError CellsLast)
  ∧ (∀ self, output_size self = Err (IndexError CellsLast) ↔ cells self = []).
Proof.
  intros Hb. split_and!.
  - unfold init. by rewrite Hb.
  - done.
  - intros self. unfold output_size. split.
    + destruct (cells self) as [|c l _] using rev_ind; [done|].
      rewrite subscript_last_snoc. simpl.
      destruct (Cell.output_size c) as [[]|], (Cell.state_size c) as [[| | | | |[]|[]]|];
        simpl; done.
    + by intros ->.
Qed.

(** ** Initial states *)

Lemma get_initial_state_loop_cons dtype batch_size c cells acc :
  get_initial_state_loop dtype batch_size (c :: cells) acc
  = cell_initial_state dtype batch_size c ≫= λ st,
      get_initial_state_loop dtype batch_size cells (acc ++ [st]).
Proof.
  unfold cell_initial_state. simpl.
  destruct (Cell.get_initial_state c) as [g|]; [done|].
  destruct (Cell.state_size c) as [ss|]; simpl; [|done].
  by destruct (if is_int ss then _ else _).
Qed.

Lemma get_initial_state_loop_traverse dtype batch_size cells acc :
  get_initial_state_loop dtype batch_size cells acc
  = (λ els, acc ++ els) <$> traverse (cell_initial_state dtype batch_size) cells.
Proof.
  revert acc. induction cells as [|c cells IH]; intros acc.
  - simpl. by rewrite app_nil_r.
  - rewrite get_initial_state_loop_cons. cbn [traverse].
    destruct (cell_initial_state dtype batch_size c) as [st|e]; simpl; [|done].
    rewrite IH. destruct (traverse _ cells); simpl; [|done].
    by rewrite <-app_assoc.
Qed.

Lemma get_initial_state_traverse self batch_size :
  get_initial_state self batch_size
  = traverse (cell_initial_state (Layer.compute_dtype (base self)) batch_size)
      (cells self).
Proof.
  unfold get_initial_state. rewrite get_initial_state_loop_traverse.
  by destruct (traverse _ _).
Qed.

Lemma traverse_defined {A B} (f : A → result B) l :
  Forall (λ a, ∃ b, f a = Ok b) l → ∃ bs, traverse f l = Ok bs.
Proof.
  induction 1 as [|a l [b Hb] _ [bs Hbs]]; simpl; [by eexists|].
  rewrite Hb; simpl. rewrite Hbs; simpl. by eexists.
Qed.

(** C5, amended. Whenever [get_initial_state] returns, the returned list
    has one element per cell, aligned by position: the element of a cell
    with a custom generator is what the generator returned for the batch
    size, and the element of a cell without one is the list of the zero
    tensors of shape (batch size, d) for the dimensions d of its state
    size, so that it holds as many tensors as the state size declares. *)
Theorem get_initial_state_aligned self batch_size r :
  get_initial_state self batch_size = Ok r →
  length r = length (cells self)
  ∧ ∀ i c e, cells self !! i = Some c → r !! i = Some e →
      match Cell.get_initial_state c with
      | Some g => g batch_size = Ok e
      | None =>
          ∃ ss dims, Cell.state_size c = Some ss
            ∧ (is_int ss = true ∧ dims = [ss]
               ∨ is_int ss = false ∧ items ss = Some dims)
            ∧ e = VList (map (λ d, zeros (VTuple [batch_size; d])
                                     (Layer.compute_dtype (base self))) dims)
            ∧ arity e = arity ss
      end.
Proof.
  rewrite get_initial_state_traverse.
  intros Hr. split; [by eapply traverse_Ok_length|].
  intros i c e Hc He.
  destruct (traverse_Ok_lookup _ _ _ _ _ Hr Hc) as (e' & He' & Hcell).
  assert (e' = e) as -> by congruence. clear He He'.
  unfold cell_initial_state in Hcell.
  destruct (Cell.get_initial_state c) as [g|]; [done|].
  destruct (Cell.state_size c) as [ss|]; simpl in Hcell; [|done].
  exists ss. destruct (is_int ss) eqn:Hint; simpl in Hcell.
  - injection Hcell as <-. exists [ss]. split_and!; eauto.
    by destruct ss.
  - destruct ss as [| | | | |l|l]; simpl in Hcell; try done;
      injection Hcell as <-; exists l; split_and!; eauto;
      unfold arity; simpl; by rewrite length_map.
Qed.

(** C6. Two cells with state sizes 4 and 8 and no custom generator: for
    batch size 3 the initial state is the zero tensor of shape (3, 4)
    followed by the zero tensor of shape (3, 8), each in the singleton list
    of its cell and in the composite's compute dtype. *)
Theorem get_initial_state_4_8 self c1 c2 :
  cells self = [c1; c2] →
  Cell.state_size c1 = Some (VInt 4) → Cell.state_size c2 = Some (VInt 8) →
  Cell.get_initial_state c1 = None → Cell.get_initial_state c2 = None →
  let dtype := Layer.compute_dtype (base self) in
  get_initial_state self (VInt 3)
  = Ok [VList [zeros (VTuple [VInt 3; VInt 4]) dtype];
        VList [zeros (VTuple [VInt 3; VInt 8]) dtype]]
  ∧ ∀ r, get_initial_state self (VInt 3) = Ok r →
      flatten (VList r) = [zeros (VTuple [VInt 3; VInt 4]) dtype;
                           zeros (VTuple [VInt 3; VInt 8]) dtype].
Proof.
  intros Hcells Hs1 Hs2 Hg1 Hg2 dtype.
  assert (get_initial_state self (VInt 3)
    = Ok [VList [zeros (VTuple [VInt 3; VInt 4]) dtype];
          VList [zeros (VTuple [VInt 3; VInt 8]) dtype]]) as Hrun.
  { unfold get_initial_state. rewrite Hcells. simpl.
    rewrite Hg1, Hs1. simpl. by rewrite Hg2, Hs2. }
  split; [done|]. intros r. rewrite Hrun. by intros [= <-].
Qed.

(** ** Stepping through the cells *)

Lemma call_loop_cons training c st pairs x kw acc w :
  call_loop training ((c, st) :: pairs) x kw acc w
  = match cell_call_fn c with
    | Err e => (w, Err e)
    | Ok f =>
        let kw' := cell_kwargs c training kw in
        let w1 := record (EvCall (Cell.id c) x (state_list st) kw') w in
        match f x (state_list st) kw' with
        | Err e => (w1, Err e)
        | Ok r => call_loop training pairs r.1 kw' (acc ++ [r.2]) w1
        end
    end.
Proof.
  cbn [call_loop]. unfold mbind, M_bind, lift, emit, cell_call_fn, state_list, record.
  destruct (if Cell.callable c then _ else _) as [f|e]; [|done]. simpl.
  by destruct (f x _ _) as [[x' st']|e].
Qed.

Lemma cell_kwargs_absorb c c' training (kw : kwargs) :
  cell_kwargs c training (cell_kwargs c' training kw) = cell_kwargs c training kw.
Proof.
  unfold cell_kwargs.
  destruct (Cell.is_layer c && _), (Cell.is_layer c' && _).
  - apply insert_insert_eq.
  - apply insert_delete_eq.
  - apply delete_insert_eq.
  - apply delete_delete_eq.
Qed.

Lemma call_loop_chain training kw0 pairs :
  ∀ x kw acc w w' out ns,
    (∀ c, cell_kwargs c training kw = cell_kwargs c training kw0) →
    call_loop training pairs x kw acc w = (w', Ok (out, ns)) ↔
    ∃ rets evs, chain training kw0 x pairs rets evs
      ∧ (x :: rets.*1) !! length pairs = Some out
      ∧ ns = acc ++ rets.*2
      ∧ w' = mkWorld (built_cells w) (trace w ++ evs).
Proof.
  induction pairs as [|[c st] pairs IH]; intros x kw acc w w' out ns Hkw.
  - simpl. unfold mret, M_ret. split.
    + intros [= <- <- <-]. exists [], []. split_and!; [constructor|done|..].
      * by rewrite app_nil_r.
      * destruct w; simpl. by rewrite app_nil_r.
    + intros (rets & evs & Hchain & Hout & -> & ->). inversion Hchain; subst.
      simpl in *. injection Hout as ->. rewrite !app_nil_r. by destruct w.
  - rewrite call_loop_cons. rewrite Hkw. split.
    + destruct (cell_call_fn c) as [f|e] eqn:Hf; [|done]. simpl.
      destruct (f x _ _) as [r|e] eqn:Hr; [|done].
      intros Hloop. apply IH in Hloop as (rets & evs & Hchain & Hout & -> & ->).
      2:{ intros c'. by rewrite cell_kwargs_absorb. }
      exists (r :: rets), (EvCall (Cell.id c) x (state_list st)
                             (cell_kwargs c training kw0) :: evs).
      split_and!.
      * by econstructor.
      * done.
      * simpl. by rewrite <-app_assoc.
      * simpl. by rewrite <-app_assoc.
    + intros (rets & evs & Hchain & Hout & -> & ->).
      inversion Hchain as [|? ? ? ? f r rets' evs' Hf Hr Hchain']; subst.
      rewrite Hf. simpl. rewrite Hr. apply IH.
      { intros c'. by rewrite cell_kwargs_absorb. }
      exists rets', evs'. split_and!; try done.
      * simpl. by rewrite <-app_assoc.
      * simpl. by rewrite <-app_assoc.
Qed.

Lemma state_list_spec st sl :
  sl = state_list st ↔
  (is_nested st = true ∧ items st = Some sl) ∨ (is_nested st = false ∧ sl = [st]).
Proof.
  unfold state_list, list_of.
  destruct st; simpl; split; try (intros ->; by eauto);
    intros [[? ?]|[? ?]]; by simplify_eq.
Qed.

(** The chain read position by position. *)
Lemma chain_lookup training kw pairs :
  ∀ x rets evs,
    chain training kw x pairs rets evs ↔
    length rets = length pairs ∧ length evs = length pairs
    ∧ ∀ i c st, pairs !! i = Some (c, st) →
        ∃ f xi r,
          (x :: rets.*1) !! i = Some xi
          ∧ cell_call_fn c = Ok f
          ∧ evs !! i = Some (EvCall (Cell.id c) xi (state_list st)
                               (cell_kwargs c training kw))
          ∧ f xi (state_list st) (cell_kwargs c training kw) = Ok r
          ∧ rets !! i = Some r.
Proof.
  induction pairs as [|[c st] pairs IH]; intros x rets evs.
  - split.
    + intros Hchain. inversion Hchain; subst. by split_and!.
    + intros (Hrets & Hevs & _).
      apply nil_length_inv in Hrets as ->. apply nil_length_inv in Hevs as ->.
      constructor.
  - split.
    + intros Hchain.
      inversion Hchain as [|? ? ? ? f r rets' evs' Hf Hr Hchain']; subst.
      apply IH in Hchain' as (Hlen & Hlen' & Hidx).
      split_and!; [simpl; by f_equal..|].
      intros [|i] c' st' Hi; simpl in Hi.
      * injection Hi as <- <-. by exists f, x, r.
      * destruct (Hidx i c' st' Hi) as (f' & xi & r' & ? & ? & ? & ? & ?).
        by exists f', xi, r'.
    + intros (Hrets & Hevs & Hidx).
      destruct rets as [|r rets]; [done|]. destruct evs as [|ev evs]; [done|].
      destruct (Hidx 0%nat c st eq_refl) as (f & xi & r' & Hx & Hf & Hev & Hr & Hr').
      simpl in Hx, Hev, Hr'. simplify_eq.
      econstructor; [done..|].
      apply IH. split_and!; [simpl in *; lia..|].
      intros i c' st' Hi.
      destruct (Hidx (S i) c' st' Hi) as (f' & xi' & r'' & ? & ? & ? & ? & ?).
      by exists f', xi', r''.
Qed.

(** C1. Given one state per cell, [call] returns (output, new states)
    exactly when there are per-cell results [rets], one per cell, such that
    the i-th cell's entry point, invoked on the i-th element of
    (inputs, outputs of the cells before) and on the normalised i-th state
    (the items of a nested state, the singleton list of any other),
    returns the i-th result; the invocations are recorded in cell order,
    the output is the last cell's output and the new states are the second
    components of the results, in cell order. *)
Theorem call_threads_cells self inputs states training kw w :
  length states = length (cells self) →
  ∀ w' out new_states,
    call self inputs states training kw w = (w', Ok (out, new_states)) ↔
    ∃ (rets : list (pyval * pyval)) (evs : list event),
      length rets = length (cells self) ∧ length evs = length (cells self)
      ∧ (∀ i c st, cells self !! i = Some c → states !! i = Some st →
           ∃ f x sl r,
             (inputs :: rets.*1) !! i = Some x
             ∧ (is_nested st = true ∧ items st = Some sl
                ∨ is_nested st = false ∧ sl = [st])
             ∧ cell_call_fn c = Ok f
             ∧ evs !! i = Some (EvCall (Cell.id c) x sl (cell_kwargs c training kw))
             ∧ f x sl (cell_kwargs c training kw) = Ok r
             ∧ rets !! i = Some r)
      ∧ (inputs :: rets.*1) !! length (cells self) = Some out
      ∧ new_states = rets.*2
      ∧ w' = mkWorld (built_cells w) (trace w ++ evs).
Proof.
  intros Hlen w' out new_states. unfold call.
  rewrite (call_loop_chain training kw) by done.
  assert (length (zip (cells self) states) = length (cells self)) as Hzip.
  { rewrite length_zip. lia. }
  split.
  - intros (rets & evs & Hchain & Hout & -> & ->).
    apply chain_lookup in Hchain as (Hrets & Hevs & Hidx).
    exists rets, evs. rewrite Hzip in *. split_and!; try done.
    intros i c st Hc Hst.
    destruct (Hidx i c st) as (f & x & r & ? & ? & ? & ? & ?).
    { by apply lookup_zip_Some. }
    exists f, x, (state_list st), r. split_and!; try done.
    by apply state_list_spec.
  - intros (rets & evs & Hrets & Hevs & Hidx & Hout & -> & ->).
    exists rets, evs. rewrite Hzip. split_and!; try done.
    apply chain_lookup. rewrite Hzip. split_and!; try done.
    intros i c st [Hc Hst]%lookup_zip_Some.
    destruct (Hidx i c st Hc Hst) as (f & x & sl & r & ? & Hsl & ? & ? & ? & ?).
    apply state_list_spec in Hsl as ->. by exists f, x, r.
Qed.

(** ** The training flag *)

(** The invocations a run of the loop records, whether or not it raises. *)
Lemma call_loop_trace training kw0 pairs :
  ∀ x kw acc w w' r,
    (∀ c, cell_kwargs c training kw = cell_kwargs c training kw0) →
    call_loop training pairs x kw acc w = (w', r) →
    ∃ evs, w' = mkWorld (built_cells w) (trace w ++ evs)
      ∧ ∀ i ev, evs !! i = Some ev →
          ∃ c st xi, pairs !! i = Some (c, st)
            ∧ ev = EvCall (Cell.id c) xi (state_list st) (cell_kwargs c training kw0).
Proof.
  induction pairs as [|[c st] pairs IH]; intros x kw acc w w' r Hkw.
  - simpl. unfold mret, M_ret. intros [= <- <-]. exists [].
    split; [destruct w; simpl; by rewrite app_nil_r|done].
  - rewrite call_loop_cons, Hkw.
    destruct (cell_call_fn c) as [f|e].
    2:{ intros [= <- <-]. exists [].
        split; [destruct w; simpl; by rewrite app_nil_r|done]. }
    simpl. set (ev0 := EvCall _ _ _ _).
    assert (∀ i ev, [ev0] !! i = Some ev →
              ∃ c' st' xi, ((c, st) :: pairs) !! i = Some (c', st')
                ∧ ev = EvCall (Cell.id c') xi (state_list st')
                         (cell_kwargs c' training kw0)) as Hhead.
    { intros [|i] ev Hi; [|done]. injection Hi as <-. by exists c, st, x. }
    destruct (f x _ _) as [res|e].
    2:{ intros [= <- <-]. by exists [ev0]. }
    intros Hloop. apply IH in Hloop as (evs & -> & Hidx).
    2:{ intros c'. by rewrite cell_kwargs_absorb. }
    exists (ev0 :: evs). split; [simpl; by rewrite <-app_assoc|].
    intros [|i] ev Hi; [by apply (Hhead 0%nat)|]. by apply Hidx.
Qed.

Lemma cell_kwargs_lookup_training c training (kw : kwargs) :
  cell_kwargs c training kw !! "training"
  = if Cell.is_layer c && Cell._call_has_training_arg c then Some training else None.
Proof.
  unfold cell_kwargs. destruct (Cell.is_layer c && _).
  - apply lookup_insert_eq.
  - apply lookup_delete_eq.
Qed.

Lemma cell_kwargs_lookup_other c training (kw : kwargs) k :
  k ≠ "training" → cell_kwargs c training kw !! k = kw !! k.
Proof.
  intros Hk. unfold cell_kwargs. destruct (Cell.is_layer c && _).
  - by apply lookup_insert_ne.
  - by apply lookup_delete_ne.
Qed.

(** C7, amended. In every run of [call], the keyword arguments of the
    invocation of a cell hold the training flag when the cell is a Layer
    whose step signature has a training parameter, and hold no training
    entry for any other cell; every other keyword argument is forwarded
    unchanged.  With two cells of which the first returns whenever it is
    handed no training flag, and the second returns, a call carrying a
    training flag returns and the first cell is invoked without the flag. *)
Theorem training_flag_forwarding self inputs states training kw w :
  (∀ w' r, call self inputs states training kw w = (w', r) →
     ∃ evs, trace w' = trace w ++ evs
       ∧ ∀ i ev, evs !! i = Some ev →
           ∃ c x sl kwi, cells self !! i = Some c
             ∧ ev = EvCall (Cell.id c) x sl kwi
             ∧ kwi !! "training"
               = (if Cell.is_layer c && Cell._call_has_training_arg c
                  then Some training else None)
             ∧ ∀ k, k ≠ "training" → kwi !! k = kw !! k)
  ∧ (∀ c1 c2 s1 s2 f1 f2,
       cells self = [c1; c2] → states = [s1; s2] →
       Cell.call_signature_has_training c1 = false →
       cell_call_fn c1 = Ok f1 → cell_call_fn c2 = Ok f2 →
       (∀ x s k, k !! "training" = None → ∃ r, f1 x s k = Ok r) →
       (∀ x s k, ∃ r, f2 x s k = Ok r) →
       ∃ w' out ns x1 x2 sl1 sl2 kw1 kw2,
         call self inputs states training kw w = (w', Ok (out, ns))
         ∧ trace w' = trace w ++ [EvCall (Cell.id c1) x1 sl1 kw1;
                                  EvCall (Cell.id c2) x2 sl2 kw2]
         ∧ kw1 !! "training" = None).
Proof.
  split.
  - intros w' r Hrun. unfold call in Hrun.
    apply (call_loop_trace training kw) in Hrun as (evs & -> & Hidx); [|done].
    exists evs. split; [done|]. intros i ev Hi.
    destruct (Hidx i ev Hi) as (c & st & xi & Hpair & ->).
    apply lookup_zip_Some in Hpair as [Hc _].
    exists c, xi, (state_list st), (cell_kwargs c training kw).
    split_and!; try done.
    + apply cell_kwargs_lookup_training.
    + intros k Hk. by apply cell_kwargs_lookup_other.
  - intros c1 c2 s1 s2 f1 f2 Hcells -> Hsig1 Hf1 Hf2 Hret1 Hret2.
    assert (cell_kwargs c1 training kw !! "training" = None) as Hkw1.
    { rewrite cell_kwargs_lookup_training. unfold Cell._call_has_training_arg.
      by rewrite Hsig1, andb_false_r. }
    destruct (Hret1 inputs (state_list s1) _ Hkw1) as [r1 Hr1].
    destruct (Hret2 r1.1 (state_list s2)
                (cell_kwargs c2 training (cell_kwargs c1 training kw))) as [r2 Hr2].
    set (kw1 := cell_kwargs c1 training kw) in *.
    set (kw2 := cell_kwargs c2 training kw1) in *.
    set (ev1 := EvCall (Cell.id c1) inputs (state_list s1) kw1).
    set (ev2 := EvCall (Cell.id c2) r1.1 (state_list s2) kw2).
    exists (record ev2 (record ev1 w)), r2.1, (([] ++ [r1.2]) ++ [r2.2]),
      inputs, r1.1, (state_list s1), (state_list s2), kw1, kw2.
    split_and!; [|simpl; by rewrite <-app_assoc|exact Hkw1].
    unfold call. rewrite Hcells.
    change (zip [c1; c2] [s1; s2]) with [(c1, s1); (c2, s2)].
    rewrite call_loop_cons, Hf1. cbv beta iota zeta. fold kw1. rewrite Hr1.
    rewrite call_loop_cons, Hf2. cbv beta iota zeta. fold kw2. rewrite Hr2.
    reflexivity.
Qed.

(** ** Building *)

Lemma output_size_last self pre c :
  cells self = pre ++ [c] → output_size self = cell_output_dim c.
Proof.
  intros Hcells. unfold output_size. by rewrite Hcells, subscript_last_snoc.
Qed.

Lemma build_loop_cons c rest input_shape w :
  build_loop (c :: rest) input_shape w
  = match build_cell c input_shape w with
    | (w1, Err e) => (w1, Err e)
    | (w1, Ok _) =>
        match cell_output_dim c with
        | Err e => (w1, Err e)
        | Ok output_dim =>
            match flatten_first input_shape with
            | Err e => (w1, Err e)
            | Ok batch_size => build_loop rest (VTuple [batch_size; output_dim]) w1
            end
        end
    end.
Proof.
  cbn [build_loop]. fold (build_cell c input_shape). fold (cell_output_dim c).
  fold (flatten_first input_shape).
  unfold mbind at 1, M_bind at 1.
  destruct (build_cell c input_shape w) as [w1 [[]|e]]; [|done].
  unfold mbind, M_bind, lift.
  destruct (cell_output_dim c) as [d|e]; [|done].
  by destruct (flatten_first input_shape).
Qed.

Lemma build_cell_skip c input_shape w :
  needs_build (built_cells w) c = false → build_cell c input_shape w = (w, Ok ()).
Proof.
  unfold needs_build, build_cell. destruct (Cell.is_layer c); [|done]. simpl.
  unfold mbind, M_bind, get_built. by intros ->%negb_false_iff.
Qed.

Lemma build_cell_run c input_shape w :
  needs_build (built_cells w) c = true →
  build_cell c input_shape w
  = match Cell.build c with
    | None => (w, Err (AttributeError "build"))
    | Some build_hook =>
        let w1 := record (EvBuild (Cell.id c) input_shape) w in
        match build_hook input_shape with
        | Err e => (w1, Err e)
        | Ok _ => (mkWorld ({[Cell.id c]} ∪ built_cells w) (trace w1), Ok ())
        end
    end.
Proof.
  unfold needs_build, build_cell. destruct (Cell.is_layer c); [|done]. simpl.
  unfold mbind, M_bind, get_built. intros ->%negb_true_iff. simpl.
  destruct (Cell.build c) as [h|]; [|done]. simpl.
  by destruct (h input_shape).
Qed.

Lemma layer_ids_cons c cells :
  layer_ids (c :: cells)
  = (if Cell.is_layer c then {[Cell.id c]} else ∅) ∪ layer_ids cells.
Proof.
  unfold layer_ids. rewrite filter_cons.
  destruct (Cell.is_layer c); case_decide; try done; simpl; set_solver.
Qed.

Lemma needs_build_layer built c :
  needs_build built c = true → Cell.is_layer c = true ∧ Cell.id c ∉ built.
Proof.
  unfold needs_build. intros [? Hb%negb_true_iff]%andb_true_iff.
  by apply bool_decide_eq_false in Hb.
Qed.

Lemma needs_build_skip built c :
  needs_build built c = false →
  (if Cell.is_layer c then {[Cell.id c]} else ∅) ∪ built = built.
Proof.
  unfold needs_build. destruct (Cell.is_layer c); simpl.
  - intros Hb%negb_false_iff. apply bool_decide_eq_true in Hb. set_solver.
  - intros _. set_solver.
Qed.

(** What one guarded hook invocation does to the world. *)
Lemma build_cell_Ok c input_shape w w1 :
  build_cell c input_shape w = (w1, Ok ()) →
  built_cells w1 = (if Cell.is_layer c then {[Cell.id c]} else ∅) ∪ built_cells w
  ∧ trace w1 = trace w ++ (if needs_build (built_cells w) c
                           then [EvBuild (Cell.id c) input_shape] else [])
  ∧ (needs_build (built_cells w) c = true →
     ∃ build_hook, Cell.build c = Some build_hook ∧ build_hook input_shape = Ok ()).
Proof.
  destruct (needs_build (built_cells w) c) eqn:Hneeds.
  - rewrite build_cell_run by done.
    destruct (needs_build_layer _ _ Hneeds) as [-> _].
    destruct (Cell.build c) as [h|]; [|done]. simpl.
    destruct (h input_shape) as [[]|e] eqn:Hh; [|done]. intros [= <-]. simpl.
    split_and!; [done..|]. intros _. by exists h.
  - rewrite build_cell_skip by done. intros [= <-].
    rewrite needs_build_skip by done. by rewrite app_nil_r.
Qed.

(** A successful run of the loop, position by position. *)
Lemma build_loop_Ok cells :
  ∀ input_shape w w',
    build_loop cells input_shape w = (w', Ok ()) →
    ∃ (shapes : list pyval) (segs : list (list event)),
      length shapes = S (length cells) ∧ length segs = length cells
      ∧ shapes !! 0%nat = Some input_shape
      ∧ (∀ i c, cells !! i = Some c →
           ∃ shape batch_size output_dim,
             shapes !! i = Some shape
             ∧ flatten_first shape = Ok batch_size
             ∧ cell_output_dim c = Ok output_dim
             ∧ shapes !! S i = Some (VTuple [batch_size; output_dim])
             ∧ let built := built_cells w ∪ layer_ids (take i cells) in
               segs !! i = Some (if needs_build built c
                                 then [EvBuild (Cell.id c) shape] else [])
               ∧ (needs_build built c = true →
                  ∃ build_hook, Cell.build c = Some build_hook
                                ∧ build_hook shape = Ok ()))
      ∧ trace w' = trace w ++ concat segs
      ∧ built_cells w' = built_cells w ∪ layer_ids cells.
Proof.
  induction cells as [|c cells IH]; intros input_shape w w'.
  - simpl. unfold mret, M_ret. intros [= <-]. exists [input_shape], [].
    split_and!; try done.
    + simpl. by rewrite app_nil_r.
    + unfold layer_ids. simpl. set_solver.
  - rewrite build_loop_cons.
    destruct (build_cell c input_shape w) as [w1 [[]|e]] eqn:Hcell; [|done].
    destruct (cell_output_dim c) as [d|e] eqn:Hdim; [|done].
    destruct (flatten_first input_shape) as [b|e] eqn:Hb; [|done].
    intros Hrest.
    apply build_cell_Ok in Hcell as (Hbuilt1 & Htrace1 & Hhook).
    apply IH in Hrest as (shapes & segs & Hlen & Hlen' & Hhead & Hidx & Htrace & Hbuilt).
    exists (input_shape :: shapes),
      ((if needs_build (built_cells w) c
        then [EvBuild (Cell.id c) input_shape] else []) :: segs).
    split_and!; [simpl; by f_equal..|done| | |].
    + intros [|i] c' Hi; simpl in Hi.
      * injection Hi as <-. exists input_shape, b, d.
        assert (built_cells w ∪ layer_ids (take 0 (c :: cells)) = built_cells w) as ->.
        { unfold layer_ids. simpl. set_solver. }
        by split_and!.
      * destruct (Hidx i c' Hi) as (sh & b' & d' & ? & ? & ? & ? & Hseg).
        exists sh, b', d'. split_and!; try done.
        assert (built_cells w ∪ layer_ids (take (S i) (c :: cells))
                = built_cells w1 ∪ layer_ids (take i cells)) as ->; [|done].
        simpl take. rewrite layer_ids_cons, Hbuilt1. set_solver.
    + rewrite Htrace, Htrace1. simpl. by rewrite <-app_assoc.
    + rewrite Hbuilt, Hbuilt1, layer_ids_cons. set_solver.
Qed.

(** When every Layer among the cells is already built, the loop leaves the
    world as it is, whatever it returns. *)
Lemma build_loop_all_built cells :
  ∀ input_shape w w' r,
    layer_ids cells ⊆ built_cells w →
    build_loop cells input_shape w = (w', r) → w' = w.
Proof.
  induction cells as [|c cells IH]; intros input_shape w w' r Hsub.
  - simpl. unfold mret, M_ret. by intros [= <-].
  - rewrite build_loop_cons. rewrite layer_ids_cons in Hsub.
    rewrite build_cell_skip.
    2:{ unfold needs_build. destruct (Cell.is_layer c); [|done]. simpl.
        apply negb_false_iff, bool_decide_eq_true. set_solver. }
    destruct (cell_output_dim c); [|by intros [= <-]].
    destruct (flatten_first input_shape); [|by intros [= <-]].
    apply IH. set_solver.
Qed.

(** Within one run, whatever it returns, no cell object has its hook
    invoked twice, and none whose built flag was set. *)
Lemma build_loop_hooks cells :
  ∀ input_shape w w' r,
    build_loop cells input_shape w = (w', r) →
    ∃ evs, trace w' = trace w ++ evs
      ∧ NoDup (hook_cells evs)
      ∧ (∀ c, c ∈ hook_cells evs → c ∉ built_cells w).
Proof.
  induction cells as [|c cells IH]; intros input_shape w w' r.
  - simpl. unfold mret, M_ret. intros [= <- <-]. exists [].
    split_and!; [by rewrite app_nil_r|constructor|set_solver].
  - rewrite build_loop_cons.
    destruct (needs_build (built_cells w) c) eqn:Hneeds.
    + rewrite build_cell_run by done.
      destruct (needs_build_layer _ _ Hneeds) as [_ Hfresh].
      assert (∀ c', c' ∈ hook_cells [EvBuild (Cell.id c) input_shape] →
                c' ∉ built_cells w) as Hone.
      { simpl. intros c' ->%list_elem_of_singleton. done. }
      destruct (Cell.build c) as [h|].
      2:{ intros [= <- <-]. exists [].
          split_and!; [by rewrite app_nil_r|constructor|set_solver]. }
      simpl. destruct (h input_shape) as [[]|e].
      2:{ intros [= <- <-]. exists [EvBuild (Cell.id c) input_shape].
          split_and!; [done|apply NoDup_singleton|done]. }
      set (w1 := mkWorld ({[Cell.id c]} ∪ built_cells w)
                   (trace w ++ [EvBuild (Cell.id c) input_shape])).
      assert (∀ e, (w1, Err e) = (w', r) →
                ∃ evs, trace w' = trace w ++ evs ∧ NoDup (hook_cells evs)
                  ∧ ∀ c', c' ∈ hook_cells evs → c' ∉ built_cells w) as Hstop.
      { intros e [= <- <-]. exists [EvBuild (Cell.id c) input_shape].
        split_and!; [done|apply NoDup_singleton|done]. }
      destruct (cell_output_dim c); [|by apply Hstop].
      destruct (flatten_first input_shape); [|by apply Hstop].
      intros Hrun. apply IH in Hrun as (evs & Htr & Hnd & Hfr). simpl in *.
      exists (EvBuild (Cell.id c) input_shape :: evs).
      split_and!.
      * rewrite Htr. by rewrite <-app_assoc.
      * simpl. constructor; [|done]. intros Hin%Hfr. set_solver.
      * simpl. intros c' [->|Hin%Hfr]%elem_of_cons; set_solver.
    + rewrite build_cell_skip by done.
      assert (∃ evs, trace w = trace w ++ evs ∧ NoDup (hook_cells evs)
                ∧ ∀ c', c' ∈ hook_cells evs → c' ∉ built_cells w) as Hnil.
      { exists []. split_and!; [by rewrite app_nil_r|constructor|set_solver]. }
      destruct (cell_output_dim c); [|by intros [= <- <-]].
      destruct (flatten_first input_shape); [|by intros [= <- <-]].
      apply IH.
Qed.

(** The leaves [nest.flatten] returns are not nested. *)
Lemma flatten_leaves v x : x ∈ flatten v → is_nested x = false.
Proof.
  revert x. induction v as [| | | | | l IH | l IH] using pyval_nested_ind;
    intros x; simpl; try (intros ->%list_elem_of_singleton; done).
  all: intros (ys & Hx & (y & -> & Hy)%list_elem_of_fmap)%list_elem_of_join.
  all: rewrite Forall_forall in IH; by eapply IH.
Qed.

Lemma flatten_leaf x : is_nested x = false → flatten x = [x].
Proof. by destruct x. Qed.

(** The batch size read off a shape is read off again from the shape handed
    to the next cell. *)
Lemma flatten_first_next input_shape batch_size output_dim :
  flatten_first input_shape = Ok batch_size →
  flatten_first (VTuple [batch_size; output_dim]) = Ok batch_size.
Proof.
  unfold flatten_first. destruct (flatten input_shape) as [|b l] eqn:Hfl; [done|].
  intros [= ->]. simpl. rewrite (flatten_leaf batch_size); [done|].
  apply (flatten_leaves input_shape). rewrite Hfl. by left.
Qed.

Lemma build_loop_returns cells :
  ∀ input_shape batch_size w,
    Forall buildable cells →
    flatten_first input_shape = Ok batch_size →
    ∃ w', build_loop cells input_shape w = (w', Ok ()).
Proof.
  induction cells as [|c cells IH]; intros input_shape b w Hall Hb.
  - by eexists.
  - apply Forall_cons in Hall as [[Hhook [d Hd]] Hall].
    rewrite build_loop_cons.
    assert (∃ w1, build_cell c input_shape w = (w1, Ok ())) as [w1 ->].
    { destruct (needs_build (built_cells w) c) eqn:Hneeds.
      - rewrite build_cell_run by done.
        destruct (needs_build_layer _ _ Hneeds) as [Hlayer _].
        destruct (Hhook Hlayer) as (h & -> & Hh). simpl. rewrite Hh. by eexists.
      - rewrite build_cell_skip by done. by eexists. }
    rewrite Hd, Hb. eapply IH; [done|]. by eapply flatten_first_next.
Qed.

(** C8, amended. A build that returns has gone through the cells in order
    with running input shapes [shapes], the first being the input shape:
    at the i-th cell the hook is invoked, with the running shape, exactly
    when the cell is a Layer instance whose built flag is not yet set, and
    the cell is then marked built; the next running shape is the pair of
    the first leaf of the flattened running shape and the cell's output
    size by the precedence of [output_size]; in the end the composite is
    marked built.  The hook of a cell that is not a Layer instance is not
    invoked.  The build returns whenever the input shape has a first leaf,
    the hooks of the Layer instances return and every cell has an output
    size. *)
Theorem build_propagates_shapes self input_shape w :
  (∀ w' self', build self input_shape w = (w', Ok self') →
     ∃ (shapes : list pyval) (segs : list (list event)),
       length shapes = S (length (cells self))
       ∧ length segs = length (cells self)
       ∧ shapes !! 0%nat = Some input_shape
       ∧ (∀ i c, cells self !! i = Some c →
            ∃ shape batch_size rest output_dim,
              shapes !! i = Some shape
              ∧ flatten shape = batch_size :: rest
              ∧ output_size (mk (base self) (take (S i) (cells self))) = Ok output_dim
              ∧ shapes !! S i = Some (VTuple [batch_size; output_dim])
              ∧ let built := built_cells w ∪ layer_ids (take i (cells self)) in
                if needs_build built c
                then segs !! i = Some [EvBuild (Cell.id c) shape]
                     ∧ ∃ build_hook, Cell.build c = Some build_hook
                                     ∧ build_hook shape = Ok ()
                else segs !! i = Some [])
       ∧ trace w' = trace w ++ concat segs
       ∧ built_cells w' = built_cells w ∪ layer_ids (cells self)
       ∧ Layer.built (base self') = true
       ∧ cells self' = cells self)
  ∧ (∀ batch_size rest,
       flatten input_shape = batch_size :: rest →
       Forall buildable (cells self) →
       ∃ w' self', build self input_shape w = (w', Ok self')).
Proof.
  split.
  - intros w' self'. unfold build, mbind, M_bind.
    destruct (build_loop (cells self) input_shape w) as [w1 [[]|e]] eqn:Hloop; [|done].
    unfold mret, M_ret. intros [= <- <-].
    apply build_loop_Ok in Hloop
      as (shapes & segs & Hlen & Hlen' & Hhead & Hidx & Htrace & Hbuilt).
    exists shapes, segs. split_and!; try done.
    intros i c Hi.
    destruct (Hidx i c Hi) as (sh & b & d & Hsh & Hb & Hd & Hnext & Hseg & Hhook).
    unfold flatten_first in Hb.
    destruct (flatten sh) as [|b' rest] eqn:Hfl; [done|]. injection Hb as ->.
    exists sh, b, rest, d. split_and!; try done.
    + rewrite <-Hd. apply (output_size_last _ (take i (cells self))). simpl.
      by apply take_S_r.
    + simpl. destruct (needs_build _ c); [|done]. split; [done|]. by apply Hhook.
  - intros b rest Hfl Hall.
    destruct (build_loop_returns (cells self) input_shape b w Hall) as [w' Hrun].
    { unfold flatten_first. by rewrite Hfl. }
    unfold build, mbind, M_bind. rewrite Hrun. by do 2 eexists.
Qed.

(** A hook that a run of the loop has invoked belongs to a cell that the
    run has marked built, unless it is the last one invoked and it raised
    the exception of the run. *)
Lemma build_loop_invoked cells :
  ∀ input_shape w w' r,
    build_loop cells input_shape w = (w', r) →
    ∃ evs, trace w' = trace w ++ evs
      ∧ built_cells w ⊆ built_cells w'
      ∧ ∀ c, c ∈ hook_cells evs →
          c ∈ built_cells w'
          ∨ ∃ cell shape build_hook e,
              cell ∈ cells ∧ Cell.id cell = c
              ∧ Cell.build cell = Some build_hook
              ∧ build_hook shape = Err e ∧ r = Err e
              ∧ last evs = Some (EvBuild c shape).
Proof.
  induction cells as [|c0 cells IH]; intros input_shape w w' r.
  - simpl. unfold mret, M_ret. intros [= <- <-]. exists [].
    split_and!; [by rewrite app_nil_r|done|]. simpl. by intros c ?%elem_of_nil.
  - rewrite build_loop_cons.
    assert (∃ evs, trace w = trace w ++ evs ∧ built_cells w ⊆ built_cells w
              ∧ ∀ c, c ∈ hook_cells evs →
                  c ∈ built_cells w
                  ∨ ∃ cell shape build_hook e,
                      cell ∈ c0 :: cells ∧ Cell.id cell = c
                      ∧ Cell.build cell = Some build_hook
                      ∧ build_hook shape = Err e ∧ r = Err e
                      ∧ last evs = Some (EvBuild c shape)) as Hnil.
    { exists []. split_and!; [by rewrite app_nil_r|done|].
      simpl. by intros c ?%elem_of_nil. }
    destruct (needs_build (built_cells w) c0) eqn:Hneeds.
    + rewrite build_cell_run by done.
      destruct (Cell.build c0) as [h|] eqn:Hh; [|by intros [= <- <-]].
      simpl. destruct (h input_shape) as [[]|e] eqn:Hrun.
      2:{ intros [= <- <-]. exists [EvBuild (Cell.id c0) input_shape].
          split_and!; [done|done|]. simpl.
          intros c ->%list_elem_of_singleton. right.
          exists c0, input_shape, h, e. split_and!; try done. by left. }
      set (w1 := mkWorld ({[Cell.id c0]} ∪ built_cells w)
                   (trace w ++ [EvBuild (Cell.id c0) input_shape])).
      assert (∀ e, (w1, Err e) = (w', r) →
                ∃ evs, trace w' = trace w ++ evs ∧ built_cells w ⊆ built_cells w'
                  ∧ ∀ c, c ∈ hook_cells evs →
                      c ∈ built_cells w'
                      ∨ ∃ cell shape build_hook e,
                          cell ∈ c0 :: cells ∧ Cell.id cell = c
                          ∧ Cell.build cell = Some build_hook
                          ∧ build_hook shape = Err e ∧ r = Err e
                          ∧ last evs = Some (EvBuild c shape)) as Hstop.
      { intros e [= <- <-]. exists [EvBuild (Cell.id c0) input_shape].
        split_and!; [done|simpl; set_solver|]. simpl.
        intros c ->%list_elem_of_singleton. left. set_solver. }
      destruct (cell_output_dim c0); [|by apply Hstop].
      destruct (flatten_first input_shape); [|by apply Hstop].
      intros Hrest. apply IH in Hrest as (evs & Htr & Hsub & Hinv). simpl in *.
      exists (EvBuild (Cell.id c0) input_shape :: evs). split_and!.
      * rewrite Htr. by rewrite <-app_assoc.
      * set_solver.
      * simpl. intros c [->|Hin]%elem_of_cons; [left; set_solver|].
        destruct (Hinv c Hin) as [?|(cell & sh & bh & e & ? & ? & ? & ? & ? & Hlast)];
          [by left|right].
        exists cell, sh, bh, e. split_and!; try done; [by right|].
        destruct evs as [|ev evs]; [done|]. by rewrite last_cons_cons.
    + rewrite build_cell_skip by done.
      destruct (cell_output_dim c0); [|by intros [= <- <-]].
      destruct (flatten_first input_shape); [|by intros [= <- <-]].
      intros Hrest. apply IH in Hrest as (evs & Htr & Hsub & Hinv).
      exists evs. split_and!; [done..|].
      intros c Hin.
      destruct (Hinv c Hin) as [?|(cell & sh & bh & e & ? & ? & ? & ? & ? & Hlast)];
        [by left|right].
      exists cell, sh, bh, e. split_and!; try done. by right.
Qed.

(** [build] is its loop, followed by the marking of the composite. *)
Lemma build_run self input_shape w w' r :
  build self input_shape w = (w', r) →
  ∃ r0, build_loop (cells self) input_shape w = (w', r0)
    ∧ r = match r0 with
          | Ok _ => Ok (mk (Layer.set_built true (base self)) (cells self))
          | Err e => Err e
          end.
Proof.
  unfold build, mbind, M_bind.
  destruct (build_loop (cells self) input_shape w) as [w1 [[]|e]];
    unfold mret, M_ret; intros [= <- <-]; by eexists.
Qed.

(** C4, amended. Two builds, one after the other, of composites with the
    same cells, with the same or different input shapes.  Whatever the
    first build returns or raises, a built flag that is set stays set and
    keeps the hook of its cell from being invoked again, and within each
    build no hook is invoked twice; the only hook that the second build
    can invoke again is the last one the first build invoked, when it
    raised and so left its cell unbuilt.  When the first build returns,
    the second build invokes no hook and changes no flag, so that over
    both builds no hook is invoked more than once. *)
Theorem build_idempotent self input_shape w w1 r1 self2 input_shape2 w2 r2 :
  build self input_shape w = (w1, r1) →
  cells self2 = cells self →
  build self2 input_shape2 w1 = (w2, r2) →
  ∃ evs1 evs2,
    trace w1 = trace w ++ evs1 ∧ trace w2 = trace w1 ++ evs2
    ∧ built_cells w ⊆ built_cells w1 ∧ built_cells w1 ⊆ built_cells w2
    ∧ NoDup (hook_cells evs1) ∧ NoDup (hook_cells evs2)
    ∧ (∀ c, c ∈ hook_cells evs1 → c ∉ built_cells w)
    ∧ (∀ c, c ∈ hook_cells evs2 → c ∉ built_cells w1)
    ∧ (∀ c, c ∈ hook_cells evs1 → c ∈ hook_cells evs2 →
         ∃ cell shape build_hook e,
           cell ∈ cells self ∧ Cell.id cell = c
           ∧ Cell.build cell = Some build_hook
           ∧ build_hook shape = Err e ∧ r1 = Err e
           ∧ last evs1 = Some (EvBuild c shape))
    ∧ (∀ self1, r1 = Ok self1 →
         evs2 = [] ∧ built_cells w2 = built_cells w1
         ∧ NoDup (hook_cells (evs1 ++ evs2))).
Proof.
  intros (r0 & Hloop1 & Hr1)%build_run Hcells (r0' & Hloop2 & Hr2)%build_run.
  rewrite Hcells in Hloop2.
  destruct (build_loop_hooks _ _ _ _ _ Hloop1) as (evs1 & Htr1 & Hnd1 & Hfresh1).
  destruct (build_loop_hooks _ _ _ _ _ Hloop2) as (evs2 & Htr2 & Hnd2 & Hfresh2).
  destruct (build_loop_invoked _ _ _ _ _ Hloop1) as (evs1' & Htr1' & Hsub1 & Hinv1).
  destruct (build_loop_invoked _ _ _ _ _ Hloop2) as (evs2' & _ & Hsub2 & _).
  assert (evs1' = evs1) as ->.
  { apply (app_inv_head (trace w)). congruence. }
  exists evs1, evs2. split_and!; try done.
  - intros c Hin1 Hin2.
    destruct (Hinv1 c Hin1) as [Hbuilt|(cell & sh & bh & e & ? & ? & ? & ? & -> & ?)].
    + by destruct (Hfresh2 c Hin2).
    + exists cell, sh, bh, e. by split_and!.
  - intros self1 Hok. destruct r0 as [[]|e]; [|congruence].
    destruct (build_loop_Ok _ _ _ _ Hloop1) as (_ & _ & _ & _ & _ & _ & _ & Hbuilt).
    pose proof Hloop2 as Hsame. apply build_loop_all_built in Hsame; [|set_solver].
    subst w2. assert (evs2 = []) as ->.
    { apply (app_inv_head (trace w1)). by rewrite app_nil_r. }
    split_and!; [done..|]. by rewrite app_nil_r.
Qed.

(** ** Configuration round trip *)

Lemma traverse_Ok_iff {A B} (f : A → result B) l bs :
  traverse f l = Ok bs ↔
  length bs = length l
  ∧ ∀ i a, l !! i = Some a → ∃ b, bs !! i = Some b ∧ f a = Ok b.
Proof.
  split.
  - intros Hl. split; [by eapply traverse_Ok_length|].
    intros i a. by eapply traverse_Ok_lookup.
  - revert bs. induction l as [|a l IH]; intros bs [Hlen Hidx].
    + by apply nil_length_inv in Hlen as ->.
    + destruct bs as [|b bs]; [done|]. simpl.
      destruct (Hidx 0%nat a eq_refl) as (b' & [= <-] & ->). simpl.
      rewrite (IH bs); [done|]. split; [simpl in Hlen; lia|].
      intros i a' Hi. by apply (Hidx (S i)).
Qed.

Lemma traverse_fails {A B} (f : A → result B) l i a e :
  l !! i = Some a → f a = Err e → ∃ e', traverse f l = Err e'.
Proof.
  revert i. induction l as [|a' l IH]; intros i; [done|].
  destruct i as [|i]; simpl.
  - intros [= ->] ->. by eexists.
  - intros Hi Ha. destruct (f a'); simpl; [|by eexists].
    destruct (IH i Hi Ha) as [e' ->]. by eexists.
Qed.

(** C9. The configuration of a composite holds, under "cells", one
    descriptor per cell, in cell order, next to the base configuration.
    Rebuilding from it returns a composite exactly when every descriptor
    is reconstructed and the constructor accepts the reconstructed cells
    with the remaining base configuration; the composite then holds, in
    the order of the descriptors, the cell reconstructed from each.  If any
    one descriptor fails to be reconstructed, rebuilding raises. *)
Theorem config_round_trip (Layer_init : kwargs → result Layer.t)
    (serialize_keras_object : Cell.t → result pyval)
    (deserialize_keras_object : pyval → pyval → result Cell.t)
    self config custom_objects :
  get_config serialize_keras_object self = Ok config →
  ∃ descriptors,
    config !! "cells" = Some (VList descriptors)
    ∧ (∀ k, k ≠ "cells" → config !! k = Layer.config (base self) !! k)
    ∧ length descriptors = length (cells self)
    ∧ (∀ i c, cells self !! i = Some c →
         ∃ d, descriptors !! i = Some d ∧ serialize_keras_object c = Ok d)
    ∧ (∀ rebuilt,
         from_config Layer_init deserialize_keras_object config custom_objects
           = Ok rebuilt ↔
         length (cells rebuilt) = length (cells self)
         ∧ (∀ i d, descriptors !! i = Some d →
              ∃ c', cells rebuilt !! i = Some c'
                    ∧ deserialize_keras_object d custom_objects = Ok c')
         ∧ Forall (λ c', valid c' = true) (cells rebuilt)
         ∧ Layer_init (delete "cells" (Layer.config (base self)))
             = Ok (base rebuilt))
    ∧ (∀ i d e, descriptors !! i = Some d →
         deserialize_keras_object d custom_objects = Err e →
         ∃ e', from_config Layer_init deserialize_keras_object config
                 custom_objects = Err e').
Proof.
  unfold get_config. intros (ds & Hds & [= <-])%bind_Ok.
  assert (delete "cells" ({["cells" := VList ds]} ∪ Layer.config (base self))
          = delete "cells" (Layer.config (base self))) as Hrest.
  { apply map_eq. intros k. destruct (decide (k = "cells")) as [->|Hk].
    - by rewrite !lookup_delete_eq.
    - rewrite !lookup_delete_ne by done.
      rewrite lookup_union_r; [done|]. by apply lookup_singleton_ne. }
  assert (({["cells" := VList ds]} ∪ Layer.config (base self) : gmap string pyval)
            !! "cells" = Some (VList ds)) as Hcells.
  { apply lookup_union_Some_l, lookup_singleton_eq. }
  pose proof (traverse_Ok_length _ _ _ Hds) as Hlen.
  exists ds. split_and!; try done.
  - intros k Hk. rewrite lookup_union_r; [done|]. by apply lookup_singleton_ne.
  - intros i c. by eapply traverse_Ok_lookup.
  - intros rebuilt. unfold from_config. rewrite Hcells, Hrest. simpl.
    rewrite bind_Ok. split.
    + intros (cells' & Hcells' & (? & ? & <-)%init_Ok).
      apply traverse_Ok_iff in Hcells' as [Hlen' Hidx]. split_and!; try done.
      by rewrite Hlen'.
    + intros (Hlen' & Hidx & Hvalid & Hbase). exists (cells rebuilt). split.
      * apply traverse_Ok_iff. split; [by rewrite Hlen'|done].
      * by apply init_Ok.
  - intros i d e Hi Hd. unfold from_config. rewrite Hcells, Hrest. simpl.
    destruct (traverse_fails
                (λ cell_config, deserialize_keras_object cell_config custom_objects)
                ds i d e Hi Hd) as [e' ->].
    by exists e'.
Qed.

(** ** The claims that fail as stated *)

(** C5 fails as stated: a valid cell that declares two state tensors and
    whose own generator returns one tensor. *)
Lemma initial_state_arity_counterexample :
  Forall (λ c, valid c = true) [lone_state_cell 0]
  ∧ ¬ initial_state_matches_arity (mk base0 [lone_state_cell 0]) (VInt 3).
Proof.
  split; [by repeat constructor|]. intros Hclaim.
  destruct (Hclaim [VTensor 0] eq_refl) as [_ Hidx].
  destruct (Hidx 0%nat (lone_state_cell 0) (VTensor 0) eq_refl eq_refl)
    as (ss & [= <-] & Harity).
  discriminate Harity.
Qed.

(** C7 fails as stated: an object that is not a Layer and whose [call] has a
    training parameter is invoked without the flag. *)
Lemma training_signature_counterexample :
  Cell.call_signature_has_training (duck_cell 0) = true
  ∧ ¬ forwards_training_by_signature (mk base0 [duck_cell 0])
        (VTensor 0) [VTensor 1] (VBool true) ∅ world0.
Proof.
  split; [done|]. intros Hclaim.
  destruct (Hclaim (mkWorld ∅ [EvCall 0 (VTensor 0) [VTensor 1] ∅])
              (Ok (VTuple [VInt 4; VTensor 0], [VList [VTensor 1]])))
    as (evs & Hevs & Hidx); [by vm_compute|].
  simpl in Hevs. subst evs.
  destruct (Hidx 0%nat _ eq_refl) as (c & x & sl & kwi & Hc & Hev & Hkw).
  injection Hc as <-. injection Hev as <- <- <-.
  simpl in Hkw. by rewrite lookup_empty in Hkw.
Qed.

(** C8 fails as stated: the build hook of an object that is not a Layer is
    not invoked, and the object is not marked built. *)
Lemma build_hook_counterexample :
  is_Some (Cell.build (duck_cell 0))
  ∧ ¬ builds_every_cell_with_hook (mk base0 [duck_cell 0])
        (VTuple [VInt 3; VInt 2]) world0.
Proof.
  split; [by eexists|]. intros Hclaim.
  destruct (Hclaim world0 (mk (Layer.set_built true base0) [duck_cell 0]) eq_refl
              (duck_cell 0) (λ _, Ok ())) as [[shape Hin] _].
  - by left.
  - simpl. set_solver.
  - done.
  - simpl in Hin. by apply elem_of_nil in Hin.
Qed.

(** C4 fails as stated: the hook of the second cell of [stack_partial]
    raises, the cell stays unbuilt, and the second build invokes the hook
    again. *)
Lemma build_twice_counterexample :
  trace (build stack_partial shape0 (build stack_partial shape0 world0).1).1
  = [EvBuild 0 shape0; EvBuild 1 (VTuple [VInt 3; VInt 4]);
     EvBuild 1 (VTuple [VInt 3; VInt 4])]
  ∧ ¬ hooks_at_most_once stack_partial shape0 world0.
Proof.
  split; [vm_compute; reflexivity|]. intros Hclaim.
  destruct (Hclaim _ _ _ _ (surjective_pairing _) (surjective_pairing _))
    as (evs & Hevs & Hnd).
  assert (evs = [EvBuild 0 shape0; EvBuild 1 (VTuple [VInt 3; VInt 4]);
                 EvBuild 1 (VTuple [VInt 3; VInt 4])]) as ->.
  { apply (app_inv_head (trace world0)). rewrite <-Hevs. vm_compute. reflexivity. }
  simpl in Hnd. apply NoDup_cons in Hnd as [_ Hnd]. apply NoDup_cons in Hnd as [Hnot _].
  apply Hnot. by left.
Qed.

(** ** The theorems at concrete stacks *)

(** [stack2] on a tensor and the states [states2]: the output went through
    both cells and each cell's new state is in its place. *)
Lemma call_threads_cells_witness :
  length states2 = length (cells stack2)
  ∧ ∃ rets : list (pyval * pyval),
      (VTensor 0 :: rets.*1) !! 2%nat
        = Some (VTuple [VInt 8; VTuple [VInt 4; VTensor 0]])
      ∧ [VList [VTensor 1]; VList [VTensor 2; VTensor 3]] = rets.*2.
Proof.
  split; [reflexivity|].
  destruct (proj1 (call_threads_cells stack2 (VTensor 0) states2 (VBool true) ∅
                     world0 eq_refl
                     (call stack2 (VTensor 0) states2 (VBool true) ∅ world0).1
                     (VTuple [VInt 8; VTuple [VInt 4; VTensor 0]])
                     [VList [VTensor 1]; VList [VTensor 2; VTensor 3]]))
    as (rets & evs & _ & _ & _ & Hout & Hns & _).
  - vm_compute. reflexivity.
  - exists rets. split; [exact Hout|exact Hns].
Defined.

(** One stack for each branch of the precedence. *)
Lemma output_size_precedence_witness :
  output_size stack2 = Ok (VInt 8)
  ∧ output_size (mk base0 [lone_state_cell 0]) = Ok (VInt 4)
  ∧ output_size stack48 = Ok (VInt 8).
Proof.
  split_and!.
  - apply (proj1 (output_size_precedence stack2 [simple_cell 0 4 false]
                    (lstm_cell 1 8) eq_refl) (VInt 8)); [reflexivity|discriminate].
  - apply (proj1 (proj2 (output_size_precedence (mk base0 [lone_state_cell 0]) []
                           (lone_state_cell 0) eq_refl)) (VInt 4) [VInt 8]).
    + left. reflexivity.
    + right. reflexivity.
  - apply (proj1 (proj2 (proj2 (output_size_precedence stack48 [simple_cell 0 4 false]
                                  (simple_cell 1 8 true) eq_refl))) (VInt 8)).
    + left. reflexivity.
    + reflexivity.
    + reflexivity.
Defined.

(** The cells of [stack2] are accepted; a list with a candidate without
    [state_size] in second place is refused for that candidate. *)
Lemma init_contract_witness :
  init Layer_init0 (cells stack2) ∅ = Ok stack2
  ∧ ∃ pre c post,
      [simple_cell 0 4 false; stateless_cell 1; lstm_cell 2 8] = pre ++ c :: post
      ∧ Forall (λ c, valid c = true) pre ∧ valid c = false
      ∧ init Layer_init0 [simple_cell 0 4 false; stateless_cell 1; lstm_cell 2 8] ∅
          = Err (ValueError (missing_capability c) (Cell.id c)).
Proof.
  split.
  - apply (proj1 (init_contract Layer_init0 (cells stack2) ∅) stack2).
    split_and!; [reflexivity| |reflexivity].
    repeat constructor.
  - apply (proj2 (init_contract Layer_init0
                    [simple_cell 0 4 false; stateless_cell 1; lstm_cell 2 8] ∅) base0).
    + reflexivity.
    + intros Hall. apply Forall_cons in Hall as [_ Hall].
      apply Forall_cons in Hall as [Hbad _]. discriminate Hbad.
Defined.

(** Building [stack2] twice: both hooks run in the first build, with the
    shapes (3, 2) and (3, 4), and none in the second. *)
Lemma build_idempotent_witness :
  let w1 := (build stack2 shape0 world0).1 in
  let self1 := mk (Layer.set_built true base0) (cells stack2) in
  build stack2 shape0 world0 = (w1, Ok self1)
  ∧ trace w1 = [EvBuild 0 shape0; EvBuild 1 (VTuple [VInt 3; VInt 4])]
  ∧ ∃ evs2, trace (build self1 shape0 w1).1 = trace w1 ++ evs2 ∧ evs2 = [].
Proof.
  intros w1 self1.
  assert (build stack2 shape0 world0 = (w1, Ok self1)) as Hrun1.
  { vm_compute. reflexivity. }
  split_and!; [exact Hrun1|vm_compute; reflexivity|].
  destruct (build_idempotent stack2 shape0 world0 w1 (Ok self1) self1 shape0
              (build self1 shape0 w1).1 (build self1 shape0 w1).2
              Hrun1 eq_refl (surjective_pairing _))
    as (evs1 & evs2 & _ & Htr2 & _ & _ & _ & _ & _ & _ & _ & Hok).
  exists evs2. split; [exact Htr2|]. exact (proj1 (Hok self1 eq_refl)).
Defined.

(** [stack2] for batch size 3: one element per cell. *)
Lemma get_initial_state_aligned_witness :
  get_initial_state stack2 (VInt 3)
  = Ok [VList [zeros (VTuple [VInt 3; VInt 4]) "float32"];
        VList [zeros (VTuple [VInt 3; VInt 8]) "float32";
               zeros (VTuple [VInt 3; VInt 8]) "float32"]]
  ∧ length [VList [zeros (VTuple [VInt 3; VInt 4]) "float32"];
            VList [zeros (VTuple [VInt 3; VInt 8]) "float32";
                   zeros (VTuple [VInt 3; VInt 8]) "float32"]]
    = length (cells stack2).
Proof.
  split; [reflexivity|].
  apply (get_initial_state_aligned stack2 (VInt 3) _ eq_refl).
Defined.

(** The scenario of state sizes 4 and 8 on [stack48]. *)
Lemma get_initial_state_4_8_witness :
  get_initial_state stack48 (VInt 3)
  = Ok [VList [zeros (VTuple [VInt 3; VInt 4]) "float32"];
        VList [zeros (VTuple [VInt 3; VInt 8]) "float32"]].
Proof.
  apply (get_initial_state_4_8 stack48 (simple_cell 0 4 false) (simple_cell 1 8 true)
           eq_refl eq_refl eq_refl eq_refl eq_refl).
Defined.

(** [stack48]: the first cell would raise on a training flag, and the call
    with training = True returns. *)
Lemma training_flag_forwarding_witness :
  (∀ x s, strict_step 4 x s {["training" := VBool true]} = Err (TypeError "training"))
  ∧ ∃ w' out ns,
      call stack48 (VTensor 0) [VTensor 1; VTensor 2] (VBool true) ∅ world0
      = (w', Ok (out, ns)).
Proof.
  split; [reflexivity|].
  destruct (proj2 (training_flag_forwarding stack48 (VTensor 0) [VTensor 1; VTensor 2]
                     (VBool true) ∅ world0)
              (simple_cell 0 4 false) (simple_cell 1 8 true) (VTensor 1) (VTensor 2)
              (strict_step 4) (training_step 8)
              eq_refl eq_refl eq_refl eq_refl eq_refl)
    as (w' & out & ns & _ & _ & _ & _ & _ & _ & Hrun & _).
  - intros x s k Hk. unfold strict_step. rewrite Hk. eexists. reflexivity.
  - intros x s k. eexists. reflexivity.
  - exists w', out, ns. exact Hrun.
Defined.

(** The build of [stack2] on the shape (3, 2) returns. *)
Lemma build_propagates_shapes_witness :
  ∃ w' self', build stack2 shape0 world0 = (w', Ok self').
Proof.
  apply (proj2 (build_propagates_shapes stack2 shape0 world0) (VInt 3) [VInt 2]).
  - reflexivity.
  - repeat constructor.
    + intros _. eexists. split; [reflexivity|]. intros shape. reflexivity.
    + eexists. reflexivity.
    + intros _. eexists. split; [reflexivity|]. intros shape. reflexivity.
    + eexists. reflexivity.
Defined.

(** The configuration of [stack2] under [serialize0]. *)
Lemma config_round_trip_witness :
  get_config serialize0 stack2 = Ok {["cells" := VList [VInt 0; VInt 1]]}
  ∧ ∃ descriptors,
      ({["cells" := VList [VInt 0; VInt 1]]} : gmap string pyval) !! "cells"
        = Some (VList descriptors)
      ∧ length descriptors = length (cells stack2).
Proof.
  assert (get_config serialize0 stack2 = Ok {["cells" := VList [VInt 0; VInt 1]]})
    as Hcfg.
  { vm_compute. reflexivity. }
  split; [exact Hcfg|].
  destruct (config_round_trip Layer_init0 serialize0 deserialize0 stack2 _ VNone Hcfg)
    as (ds & Hcells & _ & Hlen & _).
  exists ds. split; [exact Hcells|exact Hlen].
Defined.

(** The empty stack is constructed and has no output size. *)
Lemma empty_stack_output_size_witness :
  init Layer_init0 [] ∅ = Ok (mk base0 [])
  ∧ output_size (mk base0 []) = Err (IndexError CellsLast).
Proof.
  destruct (empty_stack_output_size Layer_init0 ∅ base0 eq_refl) as (Hinit & Hout & _).
  split; [exact Hinit|exact Hout].
Defined.

(** * Further properties of the composite *)

(** ** What the constructor guarantees to the properties *)

Lemma valid_attrs c :
  valid c = true → is_Some (Cell.call c) ∧ is_Some (Cell.state_size c).
Proof.
  unfold valid, Cell.has_call, Cell.has_state_size.
  intros [H1 H2]%andb_true_iff.
  by apply bool_decide_eq_true in H1; apply bool_decide_eq_true in H2.
Qed.

(** X1. On a composite returned by the constructor, [state_size] does not
    raise: it returns the list of the state sizes of the cells, in cell
    order. *)
Theorem state_size_after_init (Layer_init : kwargs → result Layer.t) cells kw self :
  init Layer_init cells kw = Ok self →
  ∃ ss, state_size self = Ok (VList ss)
    ∧ length ss = length cells
    ∧ ∀ i c, cells !! i = Some c →
        ∃ s, Cell.state_size c = Some s ∧ ss !! i = Some s.
Proof.
  intros (_ & Hvalid & Hcells)%init_Ok. unfold state_size. rewrite Hcells.
  destruct (traverse_defined (λ c, attr "state_size" (Cell.state_size c)) cells)
    as [ss Hss].
  { eapply Forall_impl; [exact Hvalid|]. intros c [_ [s Hs]]%valid_attrs.
    exists s. by rewrite Hs. }
  rewrite Hss. exists ss. split_and!; [done|by eapply traverse_Ok_length|].
  intros i c Hi.
  destruct (traverse_Ok_lookup _ _ _ _ _ Hss Hi) as (s & Hs & Hattr).
  exists s. split; [|done]. by destruct (Cell.state_size c); simplify_eq/=.
Qed.

(** ** Lists of states that do not match the cells *)

(** X3. [call] pairs cells and states with [zip]: cells beyond the number
    of states and states beyond the number of cells are ignored, without an
    exception.  A call that returns has invoked min(cells, states) cells
    and returns that many new states; with no states it returns its input
    and invokes no cell. *)
Theorem call_truncates self inputs states training kw w :
  call self inputs states training kw w
  = call (mk (base self) (take (length states) (cells self))) inputs
      (take (length (cells self)) states) training kw w
  ∧ (∀ w' out new_states,
       call self inputs states training kw w = (w', Ok (out, new_states)) →
       length new_states = Nat.min (length (cells self)) (length states)
       ∧ ∃ evs, trace w' = trace w ++ evs
           ∧ length evs = Nat.min (length (cells self)) (length states))
  ∧ (states = [] → call self inputs states training kw w = (w, Ok (inputs, []))).
Proof.
  split_and!.
  - unfold call. simpl. by rewrite zip_with_take_both.
  - intros w' out ns. unfold call. rewrite (call_loop_chain training kw) by done.
    intros (rets & evs & Hchain & _ & -> & ->).
    apply chain_lookup in Hchain as (Hrets & Hevs & _).
    rewrite length_zip in Hrets, Hevs. split.
    + simpl. by rewrite length_fmap.
    + by exists evs.
  - intros ->. unfold call. by rewrite zip_with_nil_r.
Qed.

(** ** A cell that raises *)

Lemma call_loop_kwargs training pairs x (kw1 kw2 : kwargs) acc w :
  (∀ c, cell_kwargs c training kw1 = cell_kwargs c training kw2) →
  call_loop training pairs x kw1 acc w = call_loop training pairs x kw2 acc w.
Proof.
  intros Hkw. destruct pairs as [|[c st] pairs]; [done|].
  by rewrite !call_loop_cons, Hkw.
Qed.

(** A run of the loop raises exactly when some pair is reached by a run
    over the pairs before it that returns, and the entry point of its cell
    is missing or raises. *)
Lemma call_loop_Err training kw0 pairs :
  ∀ x kw acc w w' e,
    (∀ c, cell_kwargs c training kw = cell_kwargs c training kw0) →
    call_loop training pairs x kw acc w = (w', Err e) ↔
    ∃ i c st w1 xi ns,
      pairs !! i = Some (c, st)
      ∧ call_loop training (take i pairs) x kw acc w = (w1, Ok (xi, ns))
      ∧ (cell_call_fn c = Err e ∧ w' = w1
         ∨ ∃ f, cell_call_fn c = Ok f
             ∧ f xi (state_list st) (cell_kwargs c training kw0) = Err e
             ∧ w' = record (EvCall (Cell.id c) xi (state_list st)
                              (cell_kwargs c training kw0)) w1).
Proof.
  induction pairs as [|[c0 st0] pairs IH]; intros x kw acc w w' e Hkw.
  - split; [done|]. by intros (i & c & st & w1 & xi & ns & Hi & _).
  - split.
    + rewrite call_loop_cons, Hkw.
      destruct (cell_call_fn c0) as [f|e0] eqn:Hf.
      2:{ intros [= <- <-]. exists 0%nat, c0, st0, w, x, acc.
          split_and!; [done..|]. by left. }
      cbv zeta. destruct (f x _ _) as [r|e0] eqn:Hr.
      2:{ intros [= <- <-]. exists 0%nat, c0, st0, w, x, acc.
          split_and!; [done..|]. right. by exists f. }
      intros Hrun. apply IH in Hrun as (i & c & st & w1 & xi & ns & Hi & Hpre & Hfail).
      2:{ intros c'. by rewrite cell_kwargs_absorb. }
      exists (S i), c, st, w1, xi, ns. split_and!; [done| |done].
      simpl take. rewrite call_loop_cons, Hkw, Hf. cbv zeta. by rewrite Hr.
    + intros (i & c & st & w1 & xi & ns & Hi & Hpre & Hfail).
      rewrite call_loop_cons, Hkw. destruct i as [|i].
      * simpl in Hi, Hpre. unfold mret, M_ret in Hpre. simplify_eq.
        destruct Hfail as [[Hf ->]|(f & Hf & Hr & ->)]; rewrite Hf; [done|].
        cbv zeta. by rewrite Hr.
      * simpl in Hi. simpl take in Hpre. rewrite call_loop_cons, Hkw in Hpre.
        destruct (cell_call_fn c0) as [f|e0]; [|done]. cbv zeta in *.
        destruct (f x _ _) as [r|e0]; [|done].
        apply IH; [intros c'; by rewrite cell_kwargs_absorb|].
        by exists i, c, st, w1, xi, ns.
Qed.

Lemma valid_cell_call_fn c : valid c = true → ∃ f, cell_call_fn c = Ok f.
Proof.
  intros [[f Hf] _]%valid_attrs. unfold cell_call_fn, Cell.callable.
  case_bool_decide as Hcallable.
  - destruct Hcallable as [g ->]. by exists g.
  - rewrite Hf. by exists f.
Qed.

(** X4. [call] raises exactly when one cell's entry point is missing or
    raises while [call] on the cells and states before it returns: the
    exception is that cell's, the cells after it are not invoked, and the
    new states gathered so far are not returned. *)
Theorem call_stops_at_first_failure self inputs states training kw w w' e :
  call self inputs states training kw w = (w', Err e) ↔
  ∃ i c st w1 x ns,
    cells self !! i = Some c ∧ states !! i = Some st
    ∧ call (mk (base self) (take i (cells self))) inputs (take i states)
        training kw w = (w1, Ok (x, ns))
    ∧ (cell_call_fn c = Err e ∧ w' = w1
       ∨ ∃ f, cell_call_fn c = Ok f
           ∧ f x (state_list st) (cell_kwargs c training kw) = Err e
           ∧ w' = record (EvCall (Cell.id c) x (state_list st)
                            (cell_kwargs c training kw)) w1).
Proof.
  unfold call. simpl. rewrite (call_loop_Err training kw) by done.
  split.
  - intros (i & c & st & w1 & x & ns & [Hc Hst]%lookup_zip_Some & Hpre & Hfail).
    exists i, c, st, w1, x, ns. split_and!; try done.
    by rewrite <-zip_with_take.
  - intros (i & c & st & w1 & x & ns & Hc & Hst & Hpre & Hfail).
    exists i, c, st, w1, x, ns. split_and!; try done.
    + by apply lookup_zip_Some.
    + by rewrite zip_with_take.
Qed.

(** X5. On a composite returned by the constructor every cell has an entry
    point, so that an exception of [call] is always one that the step of a
    cell raised, and the invocation of that cell is the last one recorded. *)
Theorem call_after_init (Layer_init : kwargs → result Layer.t) cells kw0 self
    inputs states training kw w w' e :
  init Layer_init cells kw0 = Ok self →
  call self inputs states training kw w = (w', Err e) →
  ∃ i c st f x,
    cells !! i = Some c ∧ states !! i = Some st
    ∧ cell_call_fn c = Ok f
    ∧ f x (state_list st) (cell_kwargs c training kw) = Err e
    ∧ last (trace w') = Some (EvCall (Cell.id c) x (state_list st)
                                (cell_kwargs c training kw)).
Proof.
  intros (_ & Hvalid & Hcells)%init_Ok. unfold call.
  rewrite (call_loop_Err training kw) by done.
  intros (i & c & st & w1 & x & ns & [Hc Hst]%lookup_zip_Some & _ & Hfail).
  rewrite Hcells in Hc.
  assert (valid c = true) as Hvc.
  { rewrite Forall_forall in Hvalid. apply Hvalid. by eapply list_elem_of_lookup_2. }
  destruct (valid_cell_call_fn c Hvc) as [f Hf].
  destruct Hfail as [[Hbad _]|(f' & Hf' & Hr & ->)]; [congruence|].
  assert (f' = f) as -> by congruence.
  exists i, c, st, f, x. split_and!; try done.
  simpl. by rewrite last_snoc.
Qed.

(** ** More on building *)

(** X6. In a build that returns, the batch size is the same for all cells:
    the first cell's hook is handed the input shape, and the hook of every
    later cell is handed the pair of the first leaf of the flattened input
    shape and the output size of the cell before it. *)
Theorem build_keeps_batch_size self input_shape w w' self' batch_size rest :
  build self input_shape w = (w', Ok self') →
  flatten input_shape = batch_size :: rest →
  ∃ segs : list (list event),
    trace w' = trace w ++ concat segs
    ∧ length segs = length (cells self)
    ∧ ∀ i c, cells self !! i = Some c →
        ∃ shape,
          segs !! i
          = Some (if needs_build (built_cells w ∪ layer_ids (take i (cells self))) c
                  then [EvBuild (Cell.id c) shape] else [])
          ∧ match i with
            | O => shape = input_shape
            | S j => ∃ output_dim,
                output_size (mk (base self) (take (S j) (cells self))) = Ok output_dim
                ∧ shape = VTuple [batch_size; output_dim]
            end.
Proof.
  unfold build, mbind, M_bind.
  destruct (build_loop (cells self) input_shape w) as [w1 [[]|e]] eqn:Hloop; [|done].
  unfold mret, M_ret. intros [= <- <-] Hfl.
  apply build_loop_Ok in Hloop
    as (shapes & segs & Hlen & Hlen' & Hhead & Hidx & Htrace & _).
  assert (∀ i sh, i ≤ length (cells self) → shapes !! i = Some sh →
            flatten_first sh = Ok batch_size)%nat as Hbatch.
  { induction i as [|i IHi]; intros sh Hi Hsh.
    - rewrite Hhead in Hsh. injection Hsh as <-. unfold flatten_first. by rewrite Hfl.
    - destruct (lookup_lt_is_Some_2 (cells self) i) as [c Hc]; [lia|].
      destruct (Hidx i c Hc) as (shi & b & d & Hshi & Hb & _ & Hnext & _).
      rewrite Hnext in Hsh. injection Hsh as <-.
      rewrite (IHi shi) in Hb by (done || lia). injection Hb as <-.
      eapply flatten_first_next, (IHi shi); [lia|done]. }
  exists segs. split_and!; try done.
  intros i c Hc.
  destruct (Hidx i c Hc) as (sh & b & d & Hsh & _ & _ & _ & Hseg & _).
  exists sh. split; [done|]. destruct i as [|j].
  - rewrite Hhead in Hsh. by injection Hsh.
  - destruct (lookup_lt_is_Some_2 (cells self) j) as [cj Hcj].
    { apply lookup_lt_Some in Hc. lia. }
    destruct (Hidx j cj Hcj) as (shj & bj & dj & Hshj & Hbj & Hdj & Hnext & _).
    rewrite Hnext in Hsh. injection Hsh as <-.
    rewrite (Hbatch j shj) in Hbj; [|apply lookup_lt_Some in Hcj; lia|done].
    injection Hbj as <-. exists dj. split; [|done].
    rewrite <-Hdj. apply (output_size_last _ (take j (cells self))). simpl.
    by apply take_S_r.
Qed.



(** X8. The input shape is read after the hook of the cell has run: on an
    input shape without leaves, such as the empty tuple, [build] raises
    the IndexError of [nest.flatten(input_shape)[0]] once the first cell
    has been built and marked built.  An empty stack is marked built
    without the shape being read. *)
Theorem build_reads_shape_late self input_shape w :
  (∀ c rest_cells output_dim build_hook,
     flatten input_shape = [] →
     cells self = c :: rest_cells →
     output_size (mk (base self) [c]) = Ok output_dim →
     needs_build (built_cells w) c = true →
     Cell.build c = Some build_hook → build_hook input_shape = Ok () →
     build self input_shape w
     = (mkWorld ({[Cell.id c]} ∪ built_cells w)
          (trace w ++ [EvBuild (Cell.id c) input_shape]),
        Err (IndexError FlattenFirst)))
  ∧ (cells self = [] →
     build self input_shape w = (w, Ok (mk (Layer.set_built true (base self)) []))).
Proof.
  split.
  - intros c rest_cells d h Hfl Hcells Hd Hneeds Hh Hrun.
    rewrite (output_size_last (mk (base self) [c]) [] c eq_refl) in Hd.
    unfold build, mbind, M_bind. rewrite Hcells, build_loop_cons.
    rewrite build_cell_run by done. rewrite Hh. simpl. rewrite Hrun, Hd.
    unfold flatten_first. by rewrite Hfl.
  - intros Hcells. unfold build, mbind, M_bind. by rewrite Hcells.
Qed.

(** ** More on configurations *)

Lemma traverse_Err_iff {A B} (f : A → result B) l e :
  traverse f l = Err e ↔
  ∃ i a, l !! i = Some a ∧ f a = Err e
    ∧ ∀ j b, (j < i)%nat → l !! j = Some b → ∃ r, f b = Ok r.
Proof.
  induction l as [|a l IH]; simpl.
  - split; [done|]. by intros (i & a & Hi & _).
  - destruct (f a) as [b|e0] eqn:Ha; simpl.
    + destruct (traverse f l) as [bs|e1]; simpl.
      * split; [done|]. intros (i & a' & Hi & Ha' & Hbefore).
        destruct i as [|i]; simpl in Hi; [congruence|].
        assert (Ok bs = Err e :> result (list B)) as Hbad; [|done].
        apply IH. exists i, a'. split_and!; [done..|].
        intros j b' Hj Hb'. apply (Hbefore (S j)); [lia|done].
      * split.
        -- intros [= ->]. destruct (proj1 IH eq_refl) as (i & a' & Hi & Ha' & Hbefore).
           exists (S i), a'. split_and!; [done..|].
           intros [|j] b' Hj Hb'; simpl in Hb'; [simplify_eq; by exists b|].
           apply (Hbefore j); [lia|done].
        -- intros (i & a' & Hi & Ha' & Hbefore).
           destruct i as [|i]; simpl in Hi; [congruence|].
           f_equal. assert (Err e1 = Err e :> result (list B)) as [= ->]; [|done].
           apply IH. exists i, a'. split_and!; [done..|].
           intros j b' Hj Hb'. apply (Hbefore (S j)); [lia|done].
    + split.
      * intros [= ->]. exists 0%nat, a. split_and!; [done..|]. intros j b' Hj. lia.
      * intros (i & a' & Hi & Ha' & Hbefore). destruct i as [|i]; simpl in Hi.
        -- congruence.
        -- destruct (Hbefore 0%nat a) as [r Hr]; [lia|done|congruence].
Qed.

(** X9. [get_config] raises exactly when the serialisation of some cell
    raises while that of every cell before it returns, and the exception
    is that of this first cell. *)
Theorem get_config_first_failure
    (serialize_keras_object : Cell.t → result pyval) self e :
  get_config serialize_keras_object self = Err e ↔
  ∃ i c, cells self !! i = Some c
    ∧ serialize_keras_object c = Err e
    ∧ ∀ j c', (j < i)%nat → cells self !! j = Some c' →
        ∃ d, serialize_keras_object c' = Ok d.
Proof.
  unfold get_config. rewrite <-traverse_Err_iff.
  destruct (traverse serialize_keras_object (cells self)); simpl.
  - split; intros [=].
  - split; by intros [= ->].
Qed.

(** X10. A configuration without "cells" makes [from_config] raise the
    KeyError of [config.pop("cells")], and one whose "cells" is None, a
    boolean or an integer makes it raise a TypeError, whatever the base
    initialisation and the deserialiser would do. *)
Theorem from_config_bad_cells (Layer_init : kwargs → result Layer.t)
    (deserialize_keras_object : pyval → pyval → result Cell.t)
    (config : gmap string pyval) custom_objects :
  (config !! "cells" = None →
   from_config Layer_init deserialize_keras_object config custom_objects
   = Err (KeyError "cells"))
  ∧ (∀ v, config !! "cells" = Some v → v = VNone ∨ is_int v = true →
     from_config Layer_init deserialize_keras_object config custom_objects
     = Err (TypeError "not iterable")).
Proof.
  unfold from_config. split.
  - by intros ->.
  - intros v -> [->|Hint]; [done|]. by destruct v.
Qed.

(** X11. When every descriptor under "cells" (a list or a tuple) is
    deserialised, [from_config] is the constructor applied to the
    deserialised cells, in the order of the descriptors, and to the
    configuration without "cells"; hence the cells of any composite it
    returns pass the contract check. *)
Theorem from_config_is_init (Layer_init : kwargs → result Layer.t)
    (deserialize_keras_object : pyval → pyval → result Cell.t)
    (config : gmap string pyval) custom_objects :
  (∀ v ds cells',
     config !! "cells" = Some v → items v = Some ds →
     length cells' = length ds →
     (∀ i d, ds !! i = Some d →
        ∃ c, cells' !! i = Some c ∧ deserialize_keras_object d custom_objects = Ok c) →
     from_config Layer_init deserialize_keras_object config custom_objects
     = init Layer_init cells' (delete "cells" config))
  ∧ (∀ self,
       from_config Layer_init deserialize_keras_object config custom_objects
       = Ok self →
       Forall (λ c, valid c = true) (cells self)
       ∧ Layer_init (delete "cells" config) = Ok (base self)
       ∧ ∃ v ds, config !! "cells" = Some v ∧ items v = Some ds
           ∧ length (cells self) = length ds).
Proof.
  unfold from_config. split.
  - intros v ds cells' -> Hitems Hlen Hidx. simpl.
    assert (iterate v = Ok ds) as ->. { by destruct v; simplify_eq/=. }
    simpl.
    assert (traverse (λ d, deserialize_keras_object d custom_objects) ds = Ok cells')
      as ->; [|done].
    by apply traverse_Ok_iff.
  - intros self. destruct (config !! "cells") as [v|]; [|done]. simpl.
    intros (ds & Hds & (cells' & Hcells' & Hinit)%bind_Ok)%bind_Ok.
    apply init_Ok in Hinit as (Hbase & Hvalid & <-).
    split_and!; [done..|]. exists v, ds. split_and!; [done| |].
    + by destruct v; simplify_eq/=.
    + by eapply traverse_Ok_length.
Qed.

(** X12. [from_config] raises the exception of the first descriptor whose
    deserialisation raises, before the constructor is reached: the base
    initialisation and the contract check play no part. *)
Theorem from_config_first_failure (Layer_init : kwargs → result Layer.t)
    (deserialize_keras_object : pyval → pyval → result Cell.t)
    (config : gmap string pyval) custom_objects v ds i d e :
  config !! "cells" = Some v → items v = Some ds →
  ds !! i = Some d →
  deserialize_keras_object d custom_objects = Err e →
  (∀ j d', (j < i)%nat → ds !! j = Some d' →
     ∃ c, deserialize_keras_object d' custom_objects = Ok c) →
  from_config Layer_init deserialize_keras_object config custom_objects = Err e.
Proof.
  intros Hv Hitems Hi Hd Hbefore. unfold from_config. rewrite Hv. simpl.
  assert (iterate v = Ok ds) as ->. { by destruct v; simplify_eq/=. }
  simpl.
  assert (traverse (λ d, deserialize_keras_object d custom_objects) ds = Err e)
    as ->; [|done].
  apply traverse_Err_iff. by exists i, d.
Qed.

Lemma traverse_compose {A B C} (f : A → result B) (g : B → result C)
    (R : A → C → Prop) l bs :
  traverse f l = Ok bs →
  (∀ a b, a ∈ l → f a = Ok b → ∃ c, g b = Ok c ∧ R a c) →
  ∃ cs, traverse g bs = Ok cs ∧ Forall2 R l cs.
Proof.
  revert bs. induction l as [|a l IH]; intros bs; simpl.
  - intros [= <-] _. exists []. by split; [|constructor].
  - intros (b & Hb & (bs' & Hbs' & [= <-])%bind_Ok)%bind_Ok Hinv.
    destruct (Hinv a b) as (c & Hc & HR); [by left|done|].
    destruct (IH bs' Hbs') as (cs & Hcs & HRs).
    { intros a' b' Ha'. apply Hinv. by right. }
    exists (c :: cs). simpl. rewrite Hc. simpl. rewrite Hcs. simpl.
    split; [done|by constructor].
Qed.

Lemma same_attributes_valid c c' :
  same_attributes c c' → valid c = true → valid c' = true.
Proof.
  intros (_ & Hcall & _ & _ & Hss & _).
  unfold valid, Cell.has_call, Cell.has_state_size. by rewrite Hcall, Hss.
Qed.

(** X13. When deserialising the descriptor of each cell of a composite
    gives a cell object with the same attributes (a new object, of another
    identity), and the cells pass the contract check, rebuilding from the
    configuration of the composite returns a composite with one such cell
    for each original cell, in the same order, on the base that the base
    initialisation makes of the base configuration. *)
Theorem from_config_get_config (Layer_init : kwargs → result Layer.t)
    (serialize_keras_object : Cell.t → result pyval)
    (deserialize_keras_object : pyval → pyval → result Cell.t)
    self config custom_objects b :
  get_config serialize_keras_object self = Ok config →
  (∀ c d, c ∈ cells self → serialize_keras_object c = Ok d →
     ∃ c', deserialize_keras_object d custom_objects = Ok c'
           ∧ same_attributes c c') →
  Forall (λ c, valid c = true) (cells self) →
  Layer_init (delete "cells" (Layer.config (base self))) = Ok b →
  ∃ cells',
    from_config Layer_init deserialize_keras_object config custom_objects
    = Ok (mk b cells')
    ∧ Forall2 same_attributes (cells self) cells'.
Proof.
  unfold get_config. intros (ds & Hds & [= <-])%bind_Ok Hinv Hvalid Hbase.
  destruct (traverse_compose _ (λ d, deserialize_keras_object d custom_objects)
              same_attributes _ _ Hds Hinv) as (cells' & Hcells' & Hsame).
  exists cells'. split; [|done]. unfold from_config.
  rewrite (lookup_union_Some_l _ _ _ (VList ds)) by apply lookup_singleton_eq.
  simpl. rewrite Hcells'. simpl. apply init_Ok. simpl. split_and!; [| |done].
  - rewrite <-Hbase. f_equal. apply map_eq. intros k.
    destruct (decide (k = "cells")) as [->|Hk].
    + by rewrite !lookup_delete_eq.
    + rewrite !lookup_delete_ne by done.
      rewrite lookup_union_r; [done|]. by apply lookup_singleton_ne.
  - clear Hcells' Hds Hinv. induction Hsame as [|c c' l l' Hcc' _ IH]; [constructor|].
    apply Forall_cons in Hvalid as [Hc Hl].
    constructor; [by eapply same_attributes_valid|by apply IH].
Qed.

(** ** Initial states and the step *)

Lemma cell_initial_state_default dtype batch_size c e :
  Cell.get_initial_state c = None →
  cell_initial_state dtype batch_size c = Ok e →
  ∃ ss dims, Cell.state_size c = Some ss
    ∧ (is_int ss = true ∧ dims = [ss] ∨ is_int ss = false ∧ items ss = Some dims)
    ∧ e = VList (map (λ d, zeros (VTuple [batch_size; d]) dtype) dims).
Proof.
  unfold cell_initial_state. intros ->.
  destruct (Cell.state_size c) as [ss|]; simpl; [|done].
  destruct (is_int ss) eqn:Hint; simpl.
  - intros [= <-]. exists ss, [ss]. eauto.
  - destruct ss as [| | | | |l|l]; simpl; try done;
      intros [= <-]; eexists _, l; eauto.
Qed.

(** X14. The list that [get_initial_state] returns fits [call]: it has one
    state per cell, and in a call on it every invoked cell without a
    generator of its own is handed, as its states, the list of the zero
    tensors of shape (batch size, d) for the dimensions d of its state
    size. *)
Theorem call_on_initial_state self batch_size r inputs training kw w w' res :
  get_initial_state self batch_size = Ok r →
  call self inputs r training kw w = (w', res) →
  length r = length (cells self)
  ∧ ∃ evs, trace w' = trace w ++ evs
      ∧ ∀ i ev, evs !! i = Some ev →
          ∃ c x sl kwi,
            cells self !! i = Some c
            ∧ ev = EvCall (Cell.id c) x sl kwi
            ∧ (Cell.get_initial_state c = None →
               ∃ ss dims, Cell.state_size c = Some ss
                 ∧ (is_int ss = true ∧ dims = [ss]
                    ∨ is_int ss = false ∧ items ss = Some dims)
                 ∧ sl = map (λ d, zeros (VTuple [batch_size; d])
                                    (Layer.compute_dtype (base self))) dims).
Proof.
  rewrite get_initial_state_traverse. intros Hr Hrun.
  split; [by eapply traverse_Ok_length|].
  unfold call in Hrun.
  apply (call_loop_trace training kw) in Hrun as (evs & -> & Hidx); [|done].
  exists evs. split; [done|]. intros i ev Hi.
  destruct (Hidx i ev Hi) as (c & st & x & [Hc Hst]%lookup_zip_Some & ->).
  exists c, x, (state_list st), (cell_kwargs c training kw).
  split_and!; [done..|]. intros Hgen.
  destruct (traverse_Ok_lookup _ _ _ _ _ Hr Hc) as (st' & Hst' & Hcell).
  assert (st' = st) as -> by congruence.
  destruct (cell_initial_state_default _ _ _ _ Hgen Hcell) as (ss & dims & ? & ? & ->).
  by exists ss, dims.
Qed.

(** ** The further properties at concrete stacks *)

(** The state sizes of [stack2]. *)
Lemma state_size_after_init_witness :
  init Layer_init0 (cells stack2) ∅ = Ok stack2
  ∧ ∃ ss, state_size stack2 = Ok (VList ss) ∧ length ss = length (cells stack2).
Proof.
  split; [reflexivity|].
  destruct (state_size_after_init Layer_init0 (cells stack2) ∅ stack2 eq_refl)
    as (ss & Hss & Hlen & _).
  exists ss. split; [exact Hss|exact Hlen].
Defined.

(** [stack2] called without states. *)
Lemma call_truncates_witness :
  call stack2 (VTensor 0) [] (VBool true) ∅ world0 = (world0, Ok (VTensor 0, [])).
Proof.
  apply (proj2 (proj2 (call_truncates stack2 (VTensor 0) [] (VBool true) ∅ world0))).
  reflexivity.
Defined.

(** [stack_raising]: the second cell raises, the third is not reached. *)
Lemma call_stops_at_first_failure_witness :
  ∃ w', call stack_raising (VTensor 0) [VTensor 1; VTensor 2; VTensor 3]
          (VBool true) ∅ world0 = (w', Err (Raised 7)).
Proof.
  eexists.
  apply (proj2 (call_stops_at_first_failure stack_raising (VTensor 0)
                  [VTensor 1; VTensor 2; VTensor 3] (VBool true) ∅ world0 _
                  (Raised 7))).
  exists 1%nat, (raising_cell 1 7), (VTensor 2).
  eexists _, _, _. split_and!; [reflexivity|reflexivity|vm_compute; reflexivity|].
  right. eexists. split_and!; reflexivity.
Defined.

(** The exception of [stack_raising] is the one its second cell raised. *)
Lemma call_after_init_witness :
  init Layer_init0 (cells stack_raising) ∅ = Ok stack_raising
  ∧ ∃ i c, cells stack_raising !! i = Some c
      ∧ ∃ f x, cell_call_fn c = Ok f
          ∧ f x (state_list (VTensor 2)) (cell_kwargs c (VBool true) ∅)
            = Err (Raised 7).
Proof.
  split; [reflexivity|].
  destruct (call_after_init Layer_init0 (cells stack_raising) ∅ stack_raising
              (VTensor 0) [VTensor 1; VTensor 2] (VBool true) ∅ world0
              (call stack_raising (VTensor 0) [VTensor 1; VTensor 2]
                 (VBool true) ∅ world0).1
              (Raised 7) eq_refl)
    as (i & c & st & f & x & Hc & Hst & Hf & Hr & _).
  - vm_compute. reflexivity.
  - destruct i as [|[|i]]; simpl in Hst; try discriminate Hst.
    + exfalso. injection Hc as <-. injection Hf as <-. discriminate Hr.
    + injection Hst as <-. exists 1%nat, c. split; [exact Hc|].
      exists f, x. split; [exact Hf|exact Hr].
Defined.

(** Building [stack2] on the shape (3, 2). *)
Lemma build_keeps_batch_size_witness :
  flatten shape0 = [VInt 3; VInt 2]
  ∧ ∃ segs : list (list event),
      trace (build stack2 shape0 world0).1 = trace world0 ++ concat segs
      ∧ length segs = length (cells stack2).
Proof.
  split; [reflexivity|].
  destruct (build_keeps_batch_size stack2 shape0 world0
              (build stack2 shape0 world0).1
              (mk (Layer.set_built true base0) (cells stack2)) (VInt 3) [VInt 2])
    as (segs & Htrace & Hlen & _).
  - vm_compute. reflexivity.
  - reflexivity.
  - exists segs. split; [exact Htrace|exact Hlen].
Defined.


(** [stack2] built on the empty tuple. *)
Lemma build_reads_shape_late_witness :
  build stack2 (VTuple []) world0
  = (mkWorld ({[0%nat]} ∪ ∅) [EvBuild 0 (VTuple [])], Err (IndexError FlattenFirst)).
Proof.
  apply (proj1 (build_reads_shape_late stack2 (VTuple []) world0)
           (simple_cell 0 4 false) [lstm_cell 1 8] (VInt 4) (λ _, Ok ()));
    reflexivity.
Defined.

(** Under [serialize_partial] the configuration of [stack2] raises. *)
Lemma get_config_first_failure_witness :
  get_config serialize_partial stack2 = Err (Raised 9).
Proof.
  apply (proj2 (get_config_first_failure serialize_partial stack2 (Raised 9))).
  exists 1%nat, (lstm_cell 1 8). split_and!; [reflexivity|reflexivity|].
  intros [|j] c' Hj Hc'; [|lia]. injection Hc' as <-. eexists. reflexivity.
Defined.

(** The empty configuration. *)
Lemma from_config_bad_cells_witness :
  from_config Layer_init0 deserialize0 ∅ VNone = Err (KeyError "cells").
Proof.
  apply (proj1 (from_config_bad_cells Layer_init0 deserialize0 ∅ VNone)).
  reflexivity.
Defined.

(** A configuration whose descriptors are a tuple, in the other order. *)
Lemma from_config_is_init_witness :
  from_config Layer_init0 deserialize0 {["cells" := VTuple [VInt 1; VInt 0]]} VNone
  = init Layer_init0 [lstm_cell 1 8; simple_cell 0 4 false]
      (delete "cells" {["cells" := VTuple [VInt 1; VInt 0]]}).
Proof.
  apply (proj1 (from_config_is_init Layer_init0 deserialize0
                  {["cells" := VTuple [VInt 1; VInt 0]]} VNone)
           (VTuple [VInt 1; VInt 0]) [VInt 1; VInt 0]).
  - reflexivity.
  - reflexivity.
  - reflexivity.
  - intros [|[|i]] d Hd; simpl in Hd; try discriminate Hd;
      injection Hd as <-; eexists; split; reflexivity.
Defined.

(** A configuration whose second descriptor is unknown. *)
Lemma from_config_first_failure_witness :
  from_config Layer_init0 deserialize0
    {["cells" := VList [VInt 0; VInt 5; VInt 1]]} VNone
  = Err (Raised 0).
Proof.
  apply (from_config_first_failure Layer_init0 deserialize0
           {["cells" := VList [VInt 0; VInt 5; VInt 1]]} VNone
           (VList [VInt 0; VInt 5; VInt 1]) [VInt 0; VInt 5; VInt 1] 1 (VInt 5)).
  - reflexivity.
  - reflexivity.
  - reflexivity.
  - reflexivity.
  - intros [|j] d' Hj Hd'; [|lia]. injection Hd' as <-. eexists. reflexivity.
Defined.

(** [stack2] comes back from its configuration as two new cell objects. *)
Lemma from_config_get_config_witness :
  get_config serialize0 stack2 = Ok {["cells" := VList [VInt 0; VInt 1]]}
  ∧ ∃ cells',
      from_config Layer_init0 deserialize_fresh
        {["cells" := VList [VInt 0; VInt 1]]} VNone = Ok (mk base0 cells')
      ∧ Forall2 same_attributes (cells stack2) cells'.
Proof.
  assert (get_config serialize0 stack2 = Ok {["cells" := VList [VInt 0; VInt 1]]})
    as Hcfg.
  { vm_compute. reflexivity. }
  split; [exact Hcfg|].
  apply (from_config_get_config Layer_init0 serialize0 deserialize_fresh stack2
           {["cells" := VList [VInt 0; VInt 1]]} VNone base0 Hcfg).
  - intros c d Hc Hd. apply list_elem_of_In in Hc.
    destruct Hc as [<-|[<-|[]]]; injection Hd as <-; eexists;
      (split; [reflexivity|repeat split]).
  - repeat constructor.
  - vm_compute. reflexivity.
Defined.

(** [stack48] called on its initial state for batch size 3. *)
Lemma call_on_initial_state_witness :
  get_initial_state stack48 (VInt 3)
  = Ok [VList [zeros (VTuple [VInt 3; VInt 4]) "float32"];
        VList [zeros (VTuple [VInt 3; VInt 8]) "float32"]]
  ∧ length [VList [zeros (VTuple [VInt 3; VInt 4]) "float32"];
            VList [zeros (VTuple [VInt 3; VInt 8]) "float32"]]
    = length (cells stack48).
Proof.
  split; [reflexivity|].
  apply (call_on_initial_state stack48 (VInt 3) _ (VTensor 0) (VBool true) ∅ world0
           (call stack48 (VTensor 0)
              [VList [zeros (VTuple [VInt 3; VInt 4]) "float32"];
               VList [zeros (VTuple [VInt 3; VInt 8]) "float32"]]
              (VBool true) ∅ world0).1
           (call stack48 (VTensor 0)
              [VList [zeros (VTuple [VInt 3; VInt 4]) "float32"];
               VList [zeros (VTuple [VInt 3; VInt 8]) "float32"]]
              (VBool true) ∅ world0).2).
  - reflexivity.
  - apply surjective_pairing.
Defined.
